(** * Legalization of HLO to the TensorFlow dialect

    A shallow embedding of
    [tensorflow/compiler/mlir/tensorflow/transforms/legalize_hlo.cc]:
    the [ConvertSliceOp] conversion pattern, the [ConvertDotOp] helper with
    its two lambdas [normalize_rank] and [reshape_to_2d], and the pass
    [LegalizeHloToTf::runOnFunction].

    The MLIR classes the file uses (attributes, types, the rewriter and the
    conversion target) are modelled by the part of their contract that the
    file relies on; each such definition says which MLIR member it stands
    for. The conversion driver of MLIR is a parameter of the pass; what is
    assumed of it is stated as its contract. *)

From stdpp Require Import base numbers option list strings gmap.

Open Scope Z_scope.

(** ** Integers: [llvm::APInt] and [int64_t] *)

(** An [APInt]: a bit width and the unsigned value of the stored word. *)
Record APInt := mkAPInt { getBitWidth : Z; getZExtValue : Z }.

Global Instance APInt_eq_dec : EqDecision APInt.
Proof. solve_decision. Defined.

(** Reduction of an integer to the range of [int64_t]. *)
Definition wrap_i64 (z : Z) : Z := (z + 2 ^ 63) mod 2 ^ 64 - 2 ^ 63.

(** [APInt::getSExtValue]: a value of one word (at most 64 bits) is read as
    a two's complement number of [getBitWidth] bits; of a wider value the
    lowest word is returned as an [int64_t]. *)
Definition getSExtValue (a : APInt) : Z :=
  let w := getBitWidth a in
  let u := getZExtValue a mod 2 ^ w in
  if w <=? 64
  then if Z.testbit u (w - 1) then u - 2 ^ w else u
  else wrap_i64 u.

(** [a - b] on [int64_t] operands (two's complement wrap-around where the
    mathematical difference leaves the range). *)
Definition sub_i64 (a b : Z) : Z := wrap_i64 (a - b).

(** The 64-bit [APInt] that holds an [int64_t]. *)
Definition APInt_of_i64 (v : Z) : APInt := mkAPInt 64 (v mod 2 ^ 64).

(** ** Types *)

Inductive ElementType :=
| IntegerType (width : Z)
| FloatType (width : Z).

Global Instance ElementType_eq_dec : EqDecision ElementType.
Proof. solve_decision. Defined.

(** [mlir::ShapedType], as far as the file looks at it: a ranked tensor with
    its dimensions, or an unranked tensor. *)
Inductive ShapedType :=
| RankedTensorType (shape : list Z) (elementType : ElementType)
| UnrankedTensorType (elementType : ElementType).

Global Instance ShapedType_eq_dec : EqDecision ShapedType.
Proof. solve_decision. Defined.

Definition getElementType (t : ShapedType) : ElementType :=
  match t with
  | RankedTensorType _ e => e
  | UnrankedTensorType e => e
  end.

(** [ShapedType::getShape] and [ShapedType::getRank] assert [hasRank()]:
    there is no answer on an unranked type. *)
Definition getShape (t : ShapedType) : option (list Z) :=
  match t with
  | RankedTensorType s _ => Some s
  | UnrankedTensorType _ => None
  end.

Definition getRank (t : ShapedType) : option Z :=
  s ← getShape t; Some (Z.of_nat (length s)).

(** ** Attributes *)

(** [mlir::DenseIntElementsAttr]: the tensor type of the attribute and its
    elements, one [APInt] per element, in row-major order. *)
Record DenseIntElementsAttr := mkDense {
  attr_type : ShapedType;
  getValues : list APInt
}.

Global Instance DenseIntElementsAttr_eq_dec : EqDecision DenseIntElementsAttr.
Proof. solve_decision. Defined.

(** [DenseElementsAttr::isSplat]: the attribute has an element and every
    element repeats the first one. *)
Definition isSplat (a : DenseIntElementsAttr) : bool :=
  match getValues a with
  | [] => false
  | v :: rest => forallb (fun x => bool_decide (x = v)) rest
  end.

(** [DenseElementsAttr::getSplatValue]: the repeated element. *)
Definition getSplatValue (a : DenseIntElementsAttr) : option APInt :=
  head (getValues a).

(** [IntegerAttr::getInt]. *)
Definition getInt (v : APInt) : Z := getSExtValue v.

(** [DenseIntElementsAttr::get(ty, ArrayRef<int64_t>)]. *)
Definition DenseIntElementsAttr_get (ty : ShapedType) (values : list Z)
  : DenseIntElementsAttr :=
  mkDense ty (APInt_of_i64 <$> values).

(** ** Values and operations *)

Definition Location := string.

(** An operation is named by its dialect and its kind inside the dialect. *)
Record OperationName := mkName { getDialect : string; getKind : string }.

Global Instance OperationName_eq_dec : EqDecision OperationName.
Proof. solve_decision. Defined.

(** A value is an argument of the function or a result of an operation,
    which is referred to by its handle. *)
Inductive Value :=
| BlockArgument (index : nat) (type : ShapedType)
| OpResult (owner : nat) (index : nat) (type : ShapedType).

Global Instance Value_eq_dec : EqDecision Value.
Proof. solve_decision. Defined.

Definition Value_getType (v : Value) : ShapedType :=
  match v with
  | BlockArgument _ t => t
  | OpResult _ _ t => t
  end.

(** The operation kinds the file reads or builds, each with its operands,
    attributes and result type, and any other operation by name. *)
Inductive OpView :=
| xla_hlo_SliceOp (type : ShapedType) (operand : Value)
    (start_indices limit_indices strides : DenseIntElementsAttr)
| xla_hlo_DotOp (type : ShapedType) (lhs rhs : Value)
| xla_hlo_ReshapeOp (type : ShapedType) (operand : Value)
| TF_ConstOp (value : DenseIntElementsAttr)
| TF_SliceOp (type : ShapedType) (input begin size : Value)
| TF_MatMulOp (type : ShapedType) (a b : Value) (transpose_a transpose_b : bool)
| OtherOp (name : OperationName) (operands : list Value)
    (resultTypes : list ShapedType).

Global Instance OpView_eq_dec : EqDecision OpView.
Proof. solve_decision. Defined.

Record Operation := mkOp {
  op_id : nat;
  getLoc : Location;
  view : OpView
}.

Global Instance Operation_eq_dec : EqDecision Operation.
Proof. solve_decision. Defined.

Definition getName (op : Operation) : OperationName :=
  match view op with
  | xla_hlo_SliceOp _ _ _ _ _ => mkName "xla_hlo" "slice"
  | xla_hlo_DotOp _ _ _ => mkName "xla_hlo" "dot"
  | xla_hlo_ReshapeOp _ _ => mkName "xla_hlo" "reshape"
  | TF_ConstOp _ => mkName "tf" "Const"
  | TF_SliceOp _ _ _ _ => mkName "tf" "Slice"
  | TF_MatMulOp _ _ _ _ _ => mkName "tf" "MatMul"
  | OtherOp n _ _ => n
  end.

(** Modelled from the spec: the builder of the TensorFlow constant operation
    is declared in [tf_ops.h], not in [legalize_hlo.cc]. A constant
    operation materializes its attribute; its result is taken to carry the
    type of the attribute. *)
Definition TF_ConstOp_type (value : DenseIntElementsAttr) : ShapedType :=
  attr_type value.

Definition getResultTypes (op : Operation) : list ShapedType :=
  match view op with
  | xla_hlo_SliceOp t _ _ _ _ => [t]
  | xla_hlo_DotOp t _ _ => [t]
  | xla_hlo_ReshapeOp t _ => [t]
  | TF_ConstOp v => [TF_ConstOp_type v]
  | TF_SliceOp t _ _ _ => [t]
  | TF_MatMulOp t _ _ _ _ => [t]
  | OtherOp _ _ ts => ts
  end.

(** The results of an operation, as values. *)
Definition getResults (op : Operation) : list Value :=
  imap (fun i t => OpResult (op_id op) i t) (getResultTypes op).

(** ** The rewriter *)

Inductive LogicalResult := success | failure.

Global Instance LogicalResult_eq_dec : EqDecision LogicalResult.
Proof. solve_decision. Defined.

Definition failed (r : LogicalResult) : bool :=
  match r with failure => true | success => false end.

(** The state a [ConversionPatternRewriter] works on: the operations of the
    function body in order, the insertion point (the position in the body at
    which the next operation is created), the next free operation handle,
    the operations created so far and the replacements recorded so far. A
    replacement is recorded, not performed: the driver rewires the uses and
    erases the replaced operation when the conversion is committed. *)
Record Rewriter := mkRewriter {
  body : list Operation;
  insertionPoint : nat;
  nextHandle : nat;
  createdOps : list Operation;
  replacements : list (nat * list Value)
}.

Global Instance Rewriter_eq_dec : EqDecision Rewriter.
Proof. solve_decision. Defined.

(** Rewriting code: it reads and updates the rewriter state and stops
    without a result where an assertion of the source fails. *)
Definition Rw (A : Type) : Type := Rewriter -> option (A * Rewriter).

Definition ret {A} (x : A) : Rw A := fun st => Some (x, st).

Definition bind {A B} (c : Rw A) (k : A -> Rw B) : Rw B :=
  fun st => match c st with
            | Some (x, st') => k x st'
            | None => None
            end.

(** The value of a checked access ([cast], [getRank] on a type that has to
    be ranked): none when the assertion fails. *)
Definition checked {A} (o : option A) : Rw A :=
  fun st => match o with
            | Some x => Some (x, st)
            | None => None
            end.

Notation "'do' x <~ c ; k" := (bind c (fun x => k))
  (at level 10, x name, c at level 100, k at level 200,
   format "'[v' 'do'  x  <~  c ; '/' k ']'").
Notation "'run' c ; k" := (bind c (fun _ => k))
  (at level 10, c at level 100, k at level 200,
   format "'[v' 'run'  c ; '/' k ']'").

(** The position just behind the operation with handle [h] in [ops] (the
    end of [ops] when no operation has that handle). *)
Fixpoint positionAfter (h : nat) (ops : list Operation) : nat :=
  match ops with
  | [] => O
  | o :: rest => if bool_decide (op_id o = h) then 1%nat
                 else S (positionAfter h rest)
  end.

Definition setInsertionPointTo (n : nat) : Rw unit :=
  fun st => Some (tt, mkRewriter (body st) n (nextHandle st) (createdOps st)
                        (replacements st)).

(** [OpBuilder::setInsertionPointAfter]: new operations go behind [op]. *)
Definition setInsertionPointAfter (op : Operation) : Rw unit :=
  fun st => setInsertionPointTo (positionAfter (op_id op) (body st)) st.

(** [ops] with [x] put in at position [n]. *)
Definition insert_at {A} (n : nat) (x : A) (ops : list A) : list A :=
  take n ops ++ x :: drop n ops.

(** [OpBuilder::create]: the new operation gets a fresh handle, is put into
    the body at the insertion point, which then stands behind it, and is
    noted as created. *)
Definition create (loc : Location) (v : OpView) : Rw Operation :=
  fun st =>
    let op := mkOp (nextHandle st) loc v in
    Some (op, mkRewriter
                (insert_at (insertionPoint st) op (body st))
                (S (insertionPoint st))
                (S (nextHandle st))
                (createdOps st ++ [op])
                (replacements st)).

(** [ConversionPatternRewriter::replaceOp]: the results of [op] are to be
    replaced by [newValues]. *)
Definition replaceOp (op : Operation) (newValues : list Value) : Rw unit :=
  fun st => Some (tt, mkRewriter (body st) (insertionPoint st) (nextHandle st)
                        (createdOps st)
                        (replacements st ++ [(op_id op, newValues)])).

(** [PatternRewriter::replaceOpWithNewOp]: create the new operation at the
    location of [op] and replace [op] by its results. *)
Definition replaceOpWithNewOp (op : Operation) (v : OpView) : Rw Operation :=
  do newOp <~ create (getLoc op) v;
  run replaceOp op (getResults newOp);
  ret newOp.

(** The single result of a single-result operation ([getResult]). *)
Definition getResult (op : Operation) : Rw Value :=
  checked (head (getResults op)).

(** ** [ConvertSliceOp] *)

Module ConvertSliceOp.

(** The loop over [llvm::zip(start, limit)]: one size per pair, as many as
    the shorter of the two ranges has elements. *)
Definition size_values (start_indices limit_indices : DenseIntElementsAttr)
  : list Z :=
  zip_with (fun s l => sub_i64 (getSExtValue l) (getSExtValue s))
           (getValues start_indices) (getValues limit_indices).

(** The guard on the strides: true when the pattern has to give up. The
    splat value is looked at only when the attribute is a splat. *)
Definition strides_not_one (strides : DenseIntElementsAttr) : bool :=
  negb (isSplat strides) ||
  match getSplatValue strides with
  | Some v => negb (getInt v =? 1)
  | None => true
  end.

(** [ConvertSliceOp::matchAndRewrite]. The pattern is an
    [OpConversionPattern<xla_hlo::SliceOp>]: on an operation of another
    kind it does not match. *)
Definition matchAndRewrite (slice_op : Operation) : Rw LogicalResult :=
  match view slice_op with
  | xla_hlo_SliceOp type operand start_indices limit_indices strides =>
      if strides_not_one strides then ret failure
      else
        run setInsertionPointAfter slice_op;
        let sizes := size_values start_indices limit_indices in
        let ty := RankedTensorType [Z.of_nat (length sizes)]
                                   (IntegerType 64) in
        do start <~ create (getLoc slice_op) (TF_ConstOp start_indices);
        do size <~ create (getLoc slice_op)
                     (TF_ConstOp (DenseIntElementsAttr_get ty sizes));
        do start_v <~ getResult start;
        do size_v <~ getResult size;
        do new_op <~ replaceOpWithNewOp slice_op
                       (TF_SliceOp type operand start_v size_v);
        ret success
  | _ => ret failure
  end.

End ConvertSliceOp.

(** ** [ConvertDotOp] *)

Module ConvertDotOp.

(** The lambda [normalize_rank]: a type of rank 2 or more is returned as it
    is; below that, a dimension of size 1 is put in front of the shape
    [2 - rank] times. *)
Definition normalize_rank (type : ShapedType) : option ShapedType :=
  rank ← getRank type;
  if 2 <=? rank then Some type
  else
    shape ← getShape type;
    Some (RankedTensorType
            (Nat.iter (Z.to_nat (2 - rank)) (cons 1) shape)
            (getElementType type)).

(** The lambda [reshape_to_2d]: the input itself when its rank is 2 or
    more, else the result of a new [xla_hlo.reshape] of it to the
    normalized type. *)
Definition reshape_to_2d (loc : Location) (input : Value) : Rw Value :=
  let input_type := Value_getType input in
  do rank <~ checked (getRank input_type);
  if 2 <=? rank then ret input
  else
    do ty <~ checked (normalize_rank input_type);
    do reshape <~ create loc (xla_hlo_ReshapeOp ty input);
    getResult reshape.

(** [ConvertDotOp]. [cast<xla_hlo::DotOp>] asserts the kind of [old_op]. *)
Definition ConvertDotOp (old_op : Operation) : Rw Value :=
  match view old_op with
  | xla_hlo_DotOp type lhs rhs =>
      let loc := getLoc old_op in
      do a <~ reshape_to_2d loc lhs;
      do b <~ reshape_to_2d loc rhs;
      let b_old_type := Value_getType rhs in
      do b_rank <~ checked (getRank b_old_type);
      let transpose_b := b_rank =? 1 in
      let output_type := type in
      do matmul_type <~ checked (normalize_rank output_type);
      do matmul <~ create loc (TF_MatMulOp matmul_type a b false transpose_b);
      do product <~ getResult matmul;
      do reshape <~ create loc (xla_hlo_ReshapeOp output_type product);
      getResult reshape
  | _ => checked None
  end.

End ConvertDotOp.

(** ** The conversion target *)

Global Instance OperationName_countable : Countable OperationName :=
  inj_countable' (fun n => (getDialect n, getKind n))
                 (fun p => mkName p.1 p.2)
                 (fun n => match n with mkName _ _ => eq_refl end).

(** What a target says about an operation or a dialect. (A target can also
    decide by a callback; the pass registers none.) *)
Inductive LegalizationAction := Legal | Illegal.

Global Instance LegalizationAction_eq_dec : EqDecision LegalizationAction.
Proof. solve_decision. Defined.

(** [mlir::ConversionTarget]: the actions set for single operations and the
    actions set for whole dialects. *)
Record ConversionTarget := mkTarget {
  legalOperations : gmap OperationName LegalizationAction;
  legalDialects : gmap string LegalizationAction
}.

Definition newTarget : ConversionTarget := mkTarget ∅ ∅.

Definition setOpAction (name : OperationName) (action : LegalizationAction)
  (target : ConversionTarget) : ConversionTarget :=
  mkTarget (<[name := action]> (legalOperations target)) (legalDialects target).

Definition setDialectAction (dialect : string) (action : LegalizationAction)
  (target : ConversionTarget) : ConversionTarget :=
  mkTarget (legalOperations target) (<[dialect := action]> (legalDialects target)).

Definition addLegalDialect (dialect : string) :=
  setDialectAction dialect Legal.

Definition addLegalOp (name : OperationName) := setOpAction name Legal.

(** [ConversionTarget::getOpAction]: the action set for the operation
    itself, else the action set for its dialect, else none. *)
Definition getOpAction (target : ConversionTarget) (name : OperationName)
  : option LegalizationAction :=
  match legalOperations target !! name with
  | Some action => Some action
  | None => legalDialects target !! getDialect name
  end.

(** [ConversionTarget::isLegal]: the legality classifier. An operation the
    target says nothing about is not legal. *)
Definition isLegal (target : ConversionTarget) (op : Operation) : bool :=
  bool_decide (getOpAction target (getName op) = Some Legal).

(** [OperationLegalizer::isIllegal]: the operation, or its dialect, was
    explicitly marked illegal. *)
Definition isIllegal (target : ConversionTarget) (op : Operation) : bool :=
  bool_decide (getOpAction target (getName op) = Some Illegal).

(** The names the pass refers to through C++ classes. *)
Definition TensorFlowDialect : string := "tf".
Definition CallOp : OperationName := mkName "std" "call".
Definition ConstantOp : OperationName := mkName "std" "constant".

(** ** Patterns and the conversion driver *)

Definition Pattern : Type := Operation -> Rw LogicalResult.

(** The operations created between two states of the rewriter. *)
Definition created_since (before after : Rewriter) : list Operation :=
  drop (length (createdOps before)) (createdOps after).

(** A handle that no operation of [ops] has. *)
Definition freshHandle (ops : list Operation) : nat :=
  S (max_list (op_id <$> ops)).

(** The rewriter a conversion of the body [ops] starts with. *)
Definition rewriter_on (ops : list Operation) : Rewriter :=
  mkRewriter ops O (freshHandle ops) [] [].

(** [mlir::applyPartialConversion] belongs to MLIR, not to the file, which
    only calls it. The pass is therefore stated over a driver: any function
    that takes the body of a function, a target and the patterns and gives
    the result of the conversion and the body the function has afterwards
    (nothing when an assertion stops the conversion). *)
Definition Driver : Type :=
  list Operation -> ConversionTarget -> list Pattern ->
  option (LogicalResult * list Operation).

(** Assumption on the driver, from the contract of a partial conversion in
    MLIR: operations that fail to legalize are ignored, and the conversion
    fails only over an operation that the target explicitly marks as
    illegal. *)
Definition fails_only_on_illegal (driver : Driver) : Prop :=
  forall ops target patterns ops',
    driver ops target patterns = Some (failure, ops') ->
    exists op, isIllegal target op = true.

(** Assumption on the driver, from the same contract: a legal operation is
    not touched, so that a function of legal operations only is left as it
    is, and its conversion succeeds. *)
Definition keeps_legal_functions (driver : Driver) : Prop :=
  forall ops target patterns,
    Forall (fun op => isLegal target op = true) ops ->
    driver ops target patterns = Some (success, ops).

(** The driver that converts nothing: every operation stays where it is
    and the conversion succeeds. It meets both assumptions, which shows
    that they can be met; it stands for no driver of MLIR. *)
Definition converts_nothing : Driver :=
  fun ops _ _ => Some (success, ops).

(** ** The pass *)

Module LegalizeHloToTf.

(** What a run of the pass leaves: the function body, the errors emitted on
    the function and whether the pass signalled failure. *)
Record PassResult := mkPassResult {
  functionBody : list Operation;
  emittedErrors : list string;
  passFailed : bool
}.

(** The target of the pass. *)
Definition target : ConversionTarget :=
  addLegalOp ConstantOp
    (addLegalOp CallOp (addLegalDialect TensorFlowDialect newTarget)).

(** [LegalizeHloToTf::runOnFunction], over the driver it calls. The
    patterns of [generated_legalize_hlo.inc] are generated when the project
    is built: [populateWithGenerated] is whatever list of patterns that
    file contributes. *)
Definition runOnFunction (applyPartialConversion : Driver)
  (populateWithGenerated : list Pattern)
  (function : list Operation) : option PassResult :=
  let patterns := populateWithGenerated ++ [ConvertSliceOp.matchAndRewrite] in
  r ← applyPartialConversion function target patterns;
  if failed r.1
  then Some (mkPassResult r.2 ["xla_hlo to TF legalization failed."] true)
  else Some (mkPassResult r.2 [] false).

End LegalizeHloToTf.

(** ** Scenarios *)

Definition i64 : ElementType := IntegerType 64.
Definition f32 : ElementType := FloatType 32.

(** A rank-1 attribute of 64-bit integers. *)
Definition i64_vector (values : list Z) : DenseIntElementsAttr :=
  DenseIntElementsAttr_get
    (RankedTensorType [Z.of_nat (length values)] i64) values.

Module ScenarioA.
Definition operand : Value := BlockArgument 0 (RankedTensorType [4; 3] f32).
Definition slice (strides : list Z) : Operation :=
  mkOp 0 "a.mlir:1"
    (xla_hlo_SliceOp (RankedTensorType [4; 2] f32) operand
       (i64_vector [0; 1]) (i64_vector [4; 3]) (i64_vector strides)).
Definition unit_stride : Operation := slice [1; 1].
Definition stride_2_1 : Operation := slice [2; 1].
End ScenarioA.

Module ScenarioB.
Definition lhs : Value := BlockArgument 0 (RankedTensorType [8] f32).
Definition rhs : Value := BlockArgument 1 (RankedTensorType [8] f32).
Definition dot : Operation :=
  mkOp 0 "b.mlir:1" (xla_hlo_DotOp (RankedTensorType [] f32) lhs rhs).
End ScenarioB.

Module ScenarioC.
Definition lhs : Value := BlockArgument 0 (RankedTensorType [3; 4] f32).
Definition rhs : Value := BlockArgument 1 (RankedTensorType [4; 5] f32).
Definition dot : Operation :=
  mkOp 0 "c.mlir:1" (xla_hlo_DotOp (RankedTensorType [3; 5] f32) lhs rhs).
End ScenarioC.

(** ** Vocabulary of the specification *)

(** A splat, in the words of the glossary: an array whose elements are all
    equal to one repeated value. *)
Definition splat_of (a : DenseIntElementsAttr) (v : APInt) : Prop :=
  exists n : nat, getValues a = replicate (S n) v.

(** Strides that are splat-equal to 1. *)
Definition splat_equal_to_1 (strides : DenseIntElementsAttr) : Prop :=
  exists v, splat_of strides v /\ getInt v = 1.

(** The elements of an attribute, read as signed numbers. *)
Definition signed_values (a : DenseIntElementsAttr) : list Z :=
  getSExtValue <$> getValues a.

(** ** States of the rewriter after a rewrite *)

(** The state [ConvertSliceOp] leaves behind on a slice with unit strides:
    three operations stand behind the slice, and the slice is to be
    replaced by the last of them. *)
Definition slice_rewritten (slice_op : Operation) (type : ShapedType)
  (operand : Value) (start_indices limit_indices : DenseIntElementsAttr)
  (st : Rewriter) : Rewriter :=
  let sizes := ConvertSliceOp.size_values start_indices limit_indices in
  let size_attr :=
    DenseIntElementsAttr_get
      (RankedTensorType [Z.of_nat (length sizes)] (IntegerType 64)) sizes in
  let h := nextHandle st in
  let loc := getLoc slice_op in
  let start_op := mkOp h loc (TF_ConstOp start_indices) in
  let size_op := mkOp (S h) loc (TF_ConstOp size_attr) in
  let new_op :=
    mkOp (S (S h)) loc
      (TF_SliceOp type operand
         (OpResult h 0 (attr_type start_indices))
         (OpResult (S h) 0 (attr_type size_attr))) in
  let p := positionAfter (op_id slice_op) (body st) in
  mkRewriter
    (take p (body st) ++ start_op :: size_op :: new_op :: drop p (body st))
    (3 + p) (3 + h)
    (createdOps st ++ [start_op; size_op; new_op])
    (replacements st ++ [(op_id slice_op, getResults new_op)]).

(** The rewriter state after [op] was created. *)
Definition after_create (st : Rewriter) (op : Operation) : Rewriter :=
  mkRewriter (insert_at (insertionPoint st) op (body st))
             (S (insertionPoint st)) (S (nextHandle st))
             (createdOps st ++ [op]) (replacements st).

Definition after_creates (st : Rewriter) (ops : list Operation) : Rewriter :=
  foldl after_create st ops.

(** ** Vocabulary of the specification, continued *)

(** The shape of a tensor as the matrix multiplication needs it: sizes of 1
    in front until the rank is 2. *)
Definition normalized_shape (shape : list Z) : list Z :=
  replicate (2 - length shape) 1 ++ shape.

(** How an operand [x] of the contraction reaches the matrix multiplication:
    [created] are the operations created for it and [a] is the value that
    is passed on. An operand of rank 2 or more is passed on as it is; an
    operand of rank 0 or 1 is reshaped to its normalized shape. *)
Inductive operand_normalized (x : Value) : list Operation -> Value -> Prop :=
| operand_passed_on (shape : list Z) (elt : ElementType) :
    Value_getType x = RankedTensorType shape elt ->
    (2 <= length shape)%nat ->
    operand_normalized x [] x
| operand_reshaped (shape : list Z) (elt : ElementType)
    (reshape : Operation) (a : Value) :
    Value_getType x = RankedTensorType shape elt ->
    (length shape < 2)%nat ->
    view reshape =
      xla_hlo_ReshapeOp (RankedTensorType (normalized_shape shape) elt) x ->
    getResults reshape = [a] ->
    operand_normalized x [reshape] a.

Definition is_reshape (op : Operation) : bool :=
  match view op with
  | xla_hlo_ReshapeOp _ _ => true
  | _ => false
  end.

(** A pattern that does not apply to [op]: it returns failure. *)
Definition not_applicable (pattern : Pattern) (op : Operation) : Prop :=
  forall st, exists st', pattern op st = Some (failure, st').

(** ** [AreBroadcastCompatible] *)

(** One step of [OpTrait::util::getBroadcastedShape]: the size that two
    aligned dimensions broadcast to, none when they are incompatible. A
    dimension of unknown size is written -1. *)
Definition broadcastedDim (d1 d2 : Z) : option Z :=
  if (d1 =? -1) || (d2 =? -1) then
    Some (if 1 <? d1 then d1
          else if 1 <? d2 then d2
          else if d1 =? 1 then d2
          else if d2 =? 1 then d1
          else -1)
  else if (d1 =? d2) || (d2 =? 1) then Some d1
  else if d1 =? 1 then Some d2
  else None.

(** The loop of [getBroadcastedShape], which walks the two shapes and the
    result from their last dimension towards the first one, as long as both
    shapes have a dimension left. The lists are the reversed shapes. *)
Fixpoint broadcastedTail (r1 r2 result : list Z) : option (list Z) :=
  match r1, r2, result with
  | d1 :: t1, d2 :: t2, _ :: tR =>
      d ← broadcastedDim d1 d2;
      tail ← broadcastedTail t1 t2 tR;
      Some (d :: tail)
  | _, _, _ => Some result
  end.

(** [OpTrait::util::getBroadcastedShape]: whether the shapes broadcast, and
    the shape they broadcast to (cleared when they do not). The result
    starts as a copy of the longer shape. *)
Definition getBroadcastedShape (shape1 shape2 : list Z) : bool * list Z :=
  let resultShape :=
    if (length shape2 <? length shape1)%nat then shape1 else shape2 in
  match broadcastedTail (reverse shape1) (reverse shape2)
                        (reverse resultShape) with
  | Some r => (true, reverse r)
  | None => (false, [])
  end.

(** [dyn_cast<RankedTensorType>]: the shape of a ranked tensor type. *)
Definition asRankedTensorType (t : ShapedType) : option (list Z) :=
  match t with
  | RankedTensorType shape _ => Some shape
  | UnrankedTensorType _ => None
  end.

(** [AreBroadcastCompatible]. *)
Definition AreBroadcastCompatible (x y : Value) : bool :=
  match asRankedTensorType (Value_getType x),
        asRankedTensorType (Value_getType y) with
  | Some x_shape, Some y_shape => (getBroadcastedShape x_shape y_shape).1
  | _, _ => true
  end.

(** ** [ShapeToConst] *)

Definition UnknownLoc : Location := "loc(unknown)".

(** [Value::getLoc]: the location of the operation that defines the value;
    an argument of the function has no known location. *)
Definition Value_getLoc (v : Value) : Rw Location :=
  fun st =>
    Some (match v with
          | OpResult owner _ _ =>
              match list_find (fun o => op_id o = owner) (body st) with
              | Some (_, o) => getLoc o
              | None => UnknownLoc
              end
          | BlockArgument _ _ => UnknownLoc
          end, st).

(** [ShapeToConst]. The new operation is a [std.constant]; the operation
    table keeps name, operands and result types of the operations of other
    dialects, so the [value] attribute of the constant is returned beside
    the operation, as the typed handle [ConstantOp] gives access to it. *)
Definition ShapeToConst (value : Value)
  : Rw (Operation * DenseIntElementsAttr) :=
  do shape <~ checked (getShape (Value_getType value));
  let attr_type :=
    RankedTensorType [Z.of_nat (length shape)] (IntegerType 64) in
  let attr := DenseIntElementsAttr_get attr_type shape in
  do loc <~ Value_getLoc value;
  do op <~ create loc (OtherOp ConstantOp [] [attr_type]);
  ret (op, attr).

(** ** Further vocabulary *)

(** [ShapedType::getNumElements] of a shape: the product of its sizes. *)
Definition numElements (shape : list Z) : Z := foldr Z.mul 1 shape.

(** A number that an [int64_t] holds. *)
Definition is_i64 (z : Z) : Prop := - 2 ^ 63 <= z < 2 ^ 63.

(** Two aligned dimensions that broadcast: they are equal, or one of them
    is 1, or one of them is unknown. *)
Definition dims_compatible (d1 d2 : Z) : Prop :=
  d1 = d2 \/ d1 = 1 \/ d2 = 1 \/ d1 = -1 \/ d2 = -1.

(** Operations with the views [views], all at [loc], with handles that
    count up from [h]. *)
Fixpoint numbered (h : nat) (loc : Location) (views : list OpView)
  : list Operation :=
  match views with
  | [] => []
  | v :: rest => mkOp h loc v :: numbered (S h) loc rest
  end.

(** * Properties *)

(** ** Integers *)

Lemma wrap_i64_in_range (z : Z) :
  - 2 ^ 63 <= z < 2 ^ 63 -> wrap_i64 z = z.
Proof.
  intros Hz. unfold wrap_i64.
  rewrite Z.mod_small; lia.
Qed.

Lemma wrap_i64_range (z : Z) : - 2 ^ 63 <= wrap_i64 z < 2 ^ 63.
Proof.
  unfold wrap_i64.
  pose proof (Z.mod_pos_bound (z + 2 ^ 63) (2 ^ 64)). lia.
Qed.

Lemma wrap_i64_idem (z : Z) : wrap_i64 (wrap_i64 z) = wrap_i64 z.
Proof. apply wrap_i64_in_range, wrap_i64_range. Qed.

Lemma testbit_top (w u : Z) :
  0 < w -> 0 <= u < 2 ^ w -> Z.testbit u (w - 1) = (2 ^ (w - 1) <=? u).
Proof.
  intros Hw Hu.
  assert (Hp : 2 ^ w = 2 * 2 ^ (w - 1)).
  { rewrite <- Z.pow_succ_r by lia. f_equal. lia. }
  assert (Hpos : 0 < 2 ^ (w - 1)) by (apply Z.pow_pos_nonneg; lia).
  rewrite Z.testbit_eqb by lia.
  destruct (Z.leb_spec (2 ^ (w - 1)) u) as [Hle | Hlt].
  - assert (Hq : u `div` 2 ^ (w - 1) = 1).
    { symmetry. apply (Z.div_unique u (2 ^ (w - 1)) 1 (u - 2 ^ (w - 1))); lia. }
    rewrite Hq. reflexivity.
  - rewrite Z.div_small by lia. reflexivity.
Qed.

(** Reading back a stored [int64_t] gives the 64-bit reduction of it. *)
Lemma getSExtValue_of_i64 (v : Z) : getSExtValue (APInt_of_i64 v) = wrap_i64 v.
Proof.
  unfold getSExtValue, APInt_of_i64, wrap_i64. cbn [getBitWidth getZExtValue].
  rewrite Z.mod_mod by lia.
  change (64 <=? 64) with true. cbv iota.
  pose proof (Z.mod_pos_bound v (2 ^ 64) ltac:(lia)) as Hu.
  rewrite testbit_top by lia.
  change (64 - 1) with 63.
  destruct (Z.leb_spec (2 ^ 63) (v mod 2 ^ 64)) as [Hle | Hlt].
  - assert (H : (v + 2 ^ 63) mod 2 ^ 64 = v mod 2 ^ 64 - 2 ^ 63).
    { symmetry.
      apply (Z.mod_unique (v + 2 ^ 63) (2 ^ 64) (v `div` 2 ^ 64 + 1)); [lia |].
      pose proof (Z.div_mod v (2 ^ 64) ltac:(lia)). lia. }
    lia.
  - assert (H : (v + 2 ^ 63) mod 2 ^ 64 = v mod 2 ^ 64 + 2 ^ 63).
    { symmetry.
      apply (Z.mod_unique (v + 2 ^ 63) (2 ^ 64) (v `div` 2 ^ 64)); [lia |].
      pose proof (Z.div_mod v (2 ^ 64) ltac:(lia)). lia. }
    lia.
Qed.

(** ** Splat attributes *)

Lemma forallb_repeats (v : APInt) (l : list APInt) :
  forallb (fun x => bool_decide (x = v)) l = true <->
  l = replicate (length l) v.
Proof.
  induction l as [| x l IH]; cbn.
  - tauto.
  - rewrite andb_true_iff, bool_decide_eq_true, IH. split.
    + intros [-> <-]. reflexivity.
    + intros H. injection H as -> H. tauto.
Qed.

Lemma isSplat_spec (a : DenseIntElementsAttr) :
  isSplat a = true <-> exists v, splat_of a v.
Proof.
  unfold isSplat, splat_of. destruct (getValues a) as [| v l].
  - split; [discriminate | intros (v & n & H); discriminate].
  - rewrite forallb_repeats. split.
    + intros H. exists v, (length l). cbn. congruence.
    + intros (v' & n & H). cbn in H. injection H as -> ->.
      rewrite length_replicate. reflexivity.
Qed.

Lemma strides_not_one_false (strides : DenseIntElementsAttr) :
  ConvertSliceOp.strides_not_one strides = false <-> splat_equal_to_1 strides.
Proof.
  unfold ConvertSliceOp.strides_not_one, splat_equal_to_1.
  rewrite orb_false_iff, negb_false_iff, isSplat_spec. split.
  - intros [(v & n & Hv) H1]. unfold getSplatValue in H1.
    rewrite Hv in H1. cbn in H1.
    rewrite negb_false_iff in H1. apply Z.eqb_eq in H1.
    exists v. split; [exists n |]; assumption.
  - intros (v & [n Hv] & H1). split; [exists v, n; assumption |].
    unfold getSplatValue. rewrite Hv. cbn.
    rewrite negb_false_iff. apply Z.eqb_eq. assumption.
Qed.

Lemma strides_not_one_true (strides : DenseIntElementsAttr) :
  ConvertSliceOp.strides_not_one strides = true <-> ~ splat_equal_to_1 strides.
Proof.
  rewrite <- strides_not_one_false.
  destruct (ConvertSliceOp.strides_not_one strides); split; congruence.
Qed.

(** ** The rewriter *)

Lemma positionAfter_le (h : nat) (ops : list Operation) :
  (positionAfter h ops <= length ops)%nat.
Proof.
  induction ops as [| o ops IH]; cbn; [lia |].
  case_bool_decide; lia.
Qed.

Lemma insert_at_app {A} (pre suf : list A) (x : A) :
  insert_at (length pre) x (pre ++ suf) = (pre ++ [x]) ++ suf.
Proof.
  unfold insert_at.
  rewrite take_app_length, drop_app_length, <- app_assoc. reflexivity.
Qed.

(** Operations created one after the other stand side by side, in the order
    of their creation. *)
Lemma insert_at_thrice {A} (n : nat) (x y z : A) (ops : list A) :
  (n <= length ops)%nat ->
  insert_at (S (S n)) z (insert_at (S n) y (insert_at n x ops)) =
  take n ops ++ x :: y :: z :: drop n ops.
Proof.
  intros Hn.
  assert (Hl : length (take n ops) = n) by (rewrite length_take; lia).
  rewrite <- (take_drop n ops) at 1.
  rewrite <- Hl at 1 2 3.
  rewrite insert_at_app.
  replace (S (length (take n ops))) with (length (take n ops ++ [x]))
    by (rewrite length_app; cbn; lia).
  rewrite insert_at_app.
  replace (S (length (take n ops ++ [x])))
    with (length ((take n ops ++ [x]) ++ [y]))
    by (rewrite !length_app; cbn; lia).
  rewrite insert_at_app.
  rewrite <- !app_assoc. reflexivity.
Qed.

(** ** [ConvertSliceOp] *)

Section SliceRewrite.

Variable slice_op : Operation.
Variables (type : ShapedType) (operand : Value).
Variables start_indices limit_indices strides : DenseIntElementsAttr.
Hypothesis slice_view :
  view slice_op =
  xla_hlo_SliceOp type operand start_indices limit_indices strides.

Variable st : Rewriter.

Lemma matchAndRewrite_applies :
  ConvertSliceOp.strides_not_one strides = false ->
  ConvertSliceOp.matchAndRewrite slice_op st =
  Some (success,
        slice_rewritten slice_op type operand start_indices limit_indices st).
Proof.
  intros Hs. unfold ConvertSliceOp.matchAndRewrite.
  rewrite slice_view, Hs.
  unfold slice_rewritten, bind, setInsertionPointAfter, setInsertionPointTo,
    replaceOpWithNewOp, create, getResult, checked, replaceOp, bind, ret.
  cbn -[insert_at Z.of_nat].
  pose proof (positionAfter_le (op_id slice_op) (body st)) as Hp.
  do 2 f_equal.
  f_equal.
  - apply insert_at_thrice. assumption.
  - rewrite <- !app_assoc. reflexivity.
Qed.

Lemma matchAndRewrite_gives_up :
  ConvertSliceOp.strides_not_one strides = true ->
  ConvertSliceOp.matchAndRewrite slice_op st = Some (failure, st).
Proof.
  intros Hs. unfold ConvertSliceOp.matchAndRewrite.
  rewrite slice_view, Hs. reflexivity.
Qed.

End SliceRewrite.

(** Whatever the operation, a failure of the pattern leaves the state as it
    was, and the pattern always returns. *)
Lemma matchAndRewrite_total (op : Operation) (st : Rewriter) :
  ConvertSliceOp.matchAndRewrite op st = Some (failure, st) \/
  exists type operand start_indices limit_indices strides,
    view op = xla_hlo_SliceOp type operand start_indices limit_indices strides /\
    ConvertSliceOp.strides_not_one strides = false /\
    ConvertSliceOp.matchAndRewrite op st =
    Some (success,
          slice_rewritten op type operand start_indices limit_indices st).
Proof.
  destruct (view op) as [t x s l d | | | | | |] eqn:Hv;
    try (left; unfold ConvertSliceOp.matchAndRewrite; rewrite Hv; reflexivity).
  destruct (ConvertSliceOp.strides_not_one d) eqn:Hs.
  - left. eapply matchAndRewrite_gives_up; eassumption.
  - right. exists t, x, s, l, d. repeat split; try assumption.
    eapply matchAndRewrite_applies; eassumption.
Qed.

Lemma size_values_lookup (start_indices limit_indices : DenseIntElementsAttr)
  (i : nat) (s l : APInt) :
  getValues start_indices !! i = Some s ->
  getValues limit_indices !! i = Some l ->
  ConvertSliceOp.size_values start_indices limit_indices !! i =
  Some (sub_i64 (getSExtValue l) (getSExtValue s)).
Proof.
  intros Hs Hl. unfold ConvertSliceOp.size_values.
  rewrite lookup_zip_with, Hs, Hl. reflexivity.
Qed.

Lemma size_values_length (start_indices limit_indices : DenseIntElementsAttr) :
  length (ConvertSliceOp.size_values start_indices limit_indices) =
  Nat.min (length (getValues start_indices)) (length (getValues limit_indices)).
Proof. apply length_zip_with. Qed.

(** The size attribute holds the sizes: read back as signed numbers, its
    elements are the computed sizes. *)
Lemma size_attr_signed_values (ty : ShapedType)
  (start_indices limit_indices : DenseIntElementsAttr) :
  signed_values
    (DenseIntElementsAttr_get ty
       (ConvertSliceOp.size_values start_indices limit_indices)) =
  ConvertSliceOp.size_values start_indices limit_indices.
Proof.
  unfold signed_values, DenseIntElementsAttr_get. cbn [getValues].
  rewrite <- list_fmap_compose.
  unfold ConvertSliceOp.size_values.
  generalize (getValues limit_indices).
  induction (getValues start_indices) as [| s ss IH]; intros [| l ls];
    cbn -[getSExtValue APInt_of_i64 sub_i64 wrap_i64]; try reflexivity.
  f_equal; [| apply IH].
  rewrite getSExtValue_of_i64. apply wrap_i64_idem.
Qed.

(** C1. On a slice whose strides are splat-equal to 1 the pattern applies.
    It computes one size per axis, [limit[i] - start[i]] in [int64_t]
    arithmetic (the mathematical difference whenever that fits into 64
    bits), creates a constant that holds the start indices and a constant
    that holds the sizes, and replaces the slice by a [tf.Slice] over the
    operand and the two constants, whose result type is the result type of
    the slice. In scenario A (start [0,1], limit [4,3], strides [1,1]) the
    constants hold [0,1] and [4,2]. *)
Theorem ConvertSliceOp_emits_contiguous_slice :
  (forall slice_op type operand start_indices limit_indices strides st,
     view slice_op =
       xla_hlo_SliceOp type operand start_indices limit_indices strides ->
     splat_equal_to_1 strides ->
     exists st' start size new_op start_v size_v size_attr,
       ConvertSliceOp.matchAndRewrite slice_op st = Some (success, st') /\
       (forall i s l,
          getValues start_indices !! i = Some s ->
          getValues limit_indices !! i = Some l ->
          signed_values size_attr !! i =
            Some (sub_i64 (getSExtValue l) (getSExtValue s)) /\
          (- 2 ^ 63 <= getSExtValue l - getSExtValue s < 2 ^ 63 ->
           signed_values size_attr !! i =
             Some (getSExtValue l - getSExtValue s))) /\
       length (getValues size_attr) =
         Nat.min (length (getValues start_indices))
                 (length (getValues limit_indices)) /\
       createdOps st' = createdOps st ++ [start; size; new_op] /\
       view start = TF_ConstOp start_indices /\
       view size = TF_ConstOp size_attr /\
       getResults start = [start_v] /\
       getResults size = [size_v] /\
       view new_op = TF_SliceOp type operand start_v size_v /\
       getResultTypes new_op = getResultTypes slice_op /\
       replacements st' =
         replacements st ++ [(op_id slice_op, getResults new_op)]) /\
  (exists st' start_type size_type,
     ConvertSliceOp.matchAndRewrite ScenarioA.unit_stride
       (rewriter_on [ScenarioA.unit_stride]) = Some (success, st') /\
     createdOps st' =
       [mkOp 1 "a.mlir:1" (TF_ConstOp (i64_vector [0; 1]));
        mkOp 2 "a.mlir:1" (TF_ConstOp (i64_vector [4; 2]));
        mkOp 3 "a.mlir:1"
          (TF_SliceOp (RankedTensorType [4; 2] f32) ScenarioA.operand
             (OpResult 1 0 start_type) (OpResult 2 0 size_type))] /\
     replacements st' = [(0%nat, [OpResult 3 0 (RankedTensorType [4; 2] f32)])]).
Proof.
  split.
  - intros slice_op type operand start_indices limit_indices strides st Hv Hs.
    apply strides_not_one_false in Hs.
    eexists _, _, _, _, _, _, _.
    split; [apply (matchAndRewrite_applies _ _ _ _ _ _ Hv st Hs) |].
    unfold slice_rewritten. cbn [createdOps replacements view].
    split; [| split; [| repeat split; try reflexivity]].
    + intros i s l Hsi Hli.
      rewrite size_attr_signed_values.
      rewrite (size_values_lookup _ _ _ _ _ Hsi Hli).
      split; [reflexivity |].
      intros Hr. unfold sub_i64. rewrite wrap_i64_in_range by assumption.
      reflexivity.
    + unfold DenseIntElementsAttr_get. cbn [getValues].
      rewrite length_fmap. apply size_values_length.
    + unfold getResultTypes. rewrite Hv. reflexivity.
  - eexists _, _, _. split; [vm_compute; reflexivity |].
    split; vm_compute; reflexivity.
Qed.

Lemma ConvertSliceOp_emits_contiguous_slice_witness :
  splat_equal_to_1 (i64_vector [1; 1]) /\
  exists st',
    ConvertSliceOp.matchAndRewrite ScenarioA.unit_stride
      (rewriter_on [ScenarioA.unit_stride]) = Some (success, st') /\
    length (createdOps st') = 3%nat.
Proof.
  assert (Hs : splat_equal_to_1 (i64_vector [1; 1])).
  { exists (APInt_of_i64 1). split; [exists 1%nat |]; reflexivity. }
  split; [exact Hs |].
  destruct (proj1 ConvertSliceOp_emits_contiguous_slice
              ScenarioA.unit_stride _ _ _ _ _
              (rewriter_on [ScenarioA.unit_stride]) eq_refl Hs)
    as (st' & start & size & new_op & start_v & size_v & size_attr &
        Hrun & _ & _ & Hcreated & _).
  exists st'. split; [exact Hrun |].
  rewrite Hcreated. reflexivity.
Defined.

(** C2. The pattern applies exactly to the slices whose strides are
    splat-equal to 1. On strides that are not a splat, and on a splat of a
    value other than 1, it returns failure and leaves the rewriter state as
    it was. *)
Theorem ConvertSliceOp_applies_iff_unit_stride :
  forall slice_op type operand start_indices limit_indices strides st,
    view slice_op =
      xla_hlo_SliceOp type operand start_indices limit_indices strides ->
    ((exists st',
        ConvertSliceOp.matchAndRewrite slice_op st = Some (success, st')) <->
     splat_equal_to_1 strides) /\
    (~ splat_equal_to_1 strides ->
     ConvertSliceOp.matchAndRewrite slice_op st = Some (failure, st)) /\
    ((forall v, ~ splat_of strides v) ->
     ConvertSliceOp.matchAndRewrite slice_op st = Some (failure, st)) /\
    (forall v, splat_of strides v -> getInt v <> 1 ->
     ConvertSliceOp.matchAndRewrite slice_op st = Some (failure, st)).
Proof.
  intros slice_op type operand start_indices limit_indices strides st Hv.
  assert (Hno : ~ splat_equal_to_1 strides ->
                ConvertSliceOp.matchAndRewrite slice_op st = Some (failure, st)).
  { intros Hn. apply strides_not_one_true in Hn.
    apply (matchAndRewrite_gives_up _ _ _ _ _ _ Hv st Hn). }
  split; [| split; [exact Hno | split]].
  - split.
    + intros [st' Hrun].
      destruct (ConvertSliceOp.strides_not_one strides) eqn:Hs.
      * rewrite (matchAndRewrite_gives_up _ _ _ _ _ _ Hv st Hs) in Hrun.
        discriminate.
      * apply strides_not_one_false. exact Hs.
    + intros Hs. apply strides_not_one_false in Hs.
      eexists. apply (matchAndRewrite_applies _ _ _ _ _ _ Hv st Hs).
  - intros Hn. apply Hno. intros (v & Hsp & _). exact (Hn v Hsp).
  - intros v [n Hsp] Hne. apply Hno.
    intros (v' & [n' Hsp'] & H1).
    rewrite Hsp in Hsp'. cbn [replicate] in Hsp'.
    assert (v = v') by congruence. subst v'. contradiction.
Qed.

Lemma ConvertSliceOp_applies_iff_unit_stride_witness :
  ConvertSliceOp.matchAndRewrite ScenarioA.stride_2_1
    (rewriter_on [ScenarioA.stride_2_1]) =
  Some (failure, rewriter_on [ScenarioA.stride_2_1]).
Proof.
  apply (proj1 (proj2 (ConvertSliceOp_applies_iff_unit_stride
                         ScenarioA.stride_2_1 _ _ _ _ _
                         (rewriter_on [ScenarioA.stride_2_1]) eq_refl))).
  intros (v & [n Hsp] & _).
  destruct n as [| [| n]]; vm_compute in Hsp; congruence.
Defined.

(** C9. When the pattern returns failure, the rewriter state after the call
    is the state before it: no operation was created, nothing in the
    function body changed, no replacement was recorded. *)
Theorem ConvertSliceOp_failure_changes_nothing :
  forall op st st',
    ConvertSliceOp.matchAndRewrite op st = Some (failure, st') ->
    st' = st /\
    body st' = body st /\
    createdOps st' = createdOps st /\
    replacements st' = replacements st.
Proof.
  intros op st st' Hrun.
  assert (Heq : st' = st).
  { destruct (matchAndRewrite_total op st)
      as [Hf | (t & x & s & l & d & _ & _ & Hs)].
    - rewrite Hf in Hrun. injection Hrun as <-. reflexivity.
    - rewrite Hs in Hrun. discriminate. }
  subst st'. repeat split.
Qed.

Lemma ConvertSliceOp_failure_changes_nothing_witness :
  body (rewriter_on [ScenarioA.stride_2_1]) = [ScenarioA.stride_2_1] /\
  ConvertSliceOp.matchAndRewrite ScenarioA.stride_2_1
    (rewriter_on [ScenarioA.stride_2_1]) =
  Some (failure, rewriter_on [ScenarioA.stride_2_1]).
Proof.
  assert (Hrun : ConvertSliceOp.matchAndRewrite ScenarioA.stride_2_1
                   (rewriter_on [ScenarioA.stride_2_1]) =
                 Some (failure, rewriter_on [ScenarioA.stride_2_1]))
    by (vm_compute; reflexivity).
  pose proof (ConvertSliceOp_failure_changes_nothing _ _ _ Hrun) as (_ & Hb & _).
  split; [exact Hb | exact Hrun].
Defined.

(** C10. The sizes are computed by [int64_t] subtraction of the
    sign-extended start from the sign-extended limit, and nothing compares
    limit and start: the pattern applies whatever their order, and on an
    axis whose limit is below its start the size constant holds a negative
    number (as far as the difference fits into 64 bits, which it does for
    every pair of indices of the same sign). The size constant is a
    one-dimensional tensor of 64-bit integers, one per axis, of whatever
    width the start and limit attributes are. *)
Theorem ConvertSliceOp_size_constant :
  forall slice_op type operand start_indices limit_indices strides st,
    view slice_op =
      xla_hlo_SliceOp type operand start_indices limit_indices strides ->
    splat_equal_to_1 strides ->
    exists st' start size new_op size_attr,
      ConvertSliceOp.matchAndRewrite slice_op st = Some (success, st') /\
      createdOps st' = createdOps st ++ [start; size; new_op] /\
      view size = TF_ConstOp size_attr /\
      attr_type size_attr =
        RankedTensorType
          [Z.of_nat (Nat.min (length (getValues start_indices))
                             (length (getValues limit_indices)))]
          (IntegerType 64) /\
      length (getValues size_attr) =
        Nat.min (length (getValues start_indices))
                (length (getValues limit_indices)) /\
      (forall e, e ∈ getValues size_attr -> getBitWidth e = 64) /\
      (forall i s l,
         getValues start_indices !! i = Some s ->
         getValues limit_indices !! i = Some l ->
         exists e,
           getValues size_attr !! i = Some e /\
           getSExtValue e = sub_i64 (getSExtValue l) (getSExtValue s) /\
           (getSExtValue l < getSExtValue s ->
            - 2 ^ 63 <= getSExtValue l - getSExtValue s ->
            getSExtValue e < 0)).
Proof.
  intros slice_op type operand start_indices limit_indices strides st Hv Hs.
  apply strides_not_one_false in Hs.
  eexists _, _, _, _, _.
  split; [apply (matchAndRewrite_applies _ _ _ _ _ _ Hv st Hs) |].
  unfold slice_rewritten. cbn [createdOps view].
  split; [reflexivity |]. split; [reflexivity |].
  unfold DenseIntElementsAttr_get. cbn [attr_type getValues].
  rewrite length_fmap, size_values_length.
  split; [reflexivity |]. split; [reflexivity |]. split.
  - intros e He. apply list_elem_of_fmap in He as (z & -> & _). reflexivity.
  - intros i s l Hsi Hli.
    exists (APInt_of_i64 (sub_i64 (getSExtValue l) (getSExtValue s))).
    rewrite list_lookup_fmap, (size_values_lookup _ _ _ _ _ Hsi Hli).
    split; [reflexivity |].
    rewrite getSExtValue_of_i64. unfold sub_i64. rewrite wrap_i64_idem.
    split; [reflexivity |].
    intros Hlt Hlo. rewrite wrap_i64_in_range by lia. lia.
Qed.

(** ** [ConvertDotOp] *)

Lemma create_spec (loc : Location) (v : OpView) (st : Rewriter) :
  create loc v st =
  Some (mkOp (nextHandle st) loc v,
        after_create st (mkOp (nextHandle st) loc v)).
Proof. reflexivity. Qed.

Lemma createdOps_after_creates (st : Rewriter) (ops : list Operation) :
  createdOps (after_creates st ops) = createdOps st ++ ops.
Proof.
  revert st. induction ops as [| o ops IH]; intros st; cbn.
  - rewrite app_nil_r. reflexivity.
  - unfold after_creates in IH. rewrite IH. cbn.
    rewrite <- app_assoc. reflexivity.
Qed.

Lemma after_creates_app (st : Rewriter) (l k : list Operation) :
  after_creates (after_creates st l) k = after_creates st (l ++ k).
Proof. unfold after_creates. rewrite foldl_app. reflexivity. Qed.

Lemma iter_cons_one (n : nat) (shape : list Z) :
  Nat.iter n (cons 1) shape = replicate n 1 ++ shape.
Proof.
  induction n as [| n IH]; [reflexivity |].
  change (Nat.iter (S n) (cons 1) shape) with (1 :: Nat.iter n (cons 1) shape).
  rewrite IH. reflexivity.
Qed.

Lemma getRank_ranked (shape : list Z) (elt : ElementType) :
  getRank (RankedTensorType shape elt) = Some (Z.of_nat (length shape)).
Proof. reflexivity. Qed.

Lemma normalize_rank_ranked (shape : list Z) (elt : ElementType) :
  ConvertDotOp.normalize_rank (RankedTensorType shape elt) =
  Some (RankedTensorType (normalized_shape shape) elt).
Proof.
  unfold ConvertDotOp.normalize_rank, normalized_shape.
  rewrite getRank_ranked. cbn [mbind option_bind getShape getElementType].
  destruct (Z.leb_spec 2 (Z.of_nat (length shape))) as [Hge | Hlt].
  - replace (2 - length shape)%nat with O by lia. reflexivity.
  - rewrite iter_cons_one.
    replace (Z.to_nat (2 - Z.of_nat (length shape)))
      with (2 - length shape)%nat by lia.
    reflexivity.
Qed.

Lemma normalized_shape_rank (shape : list Z) :
  (length shape < 2)%nat -> length (normalized_shape shape) = 2%nat.
Proof.
  intros H. unfold normalized_shape.
  rewrite length_app, length_replicate. lia.
Qed.

Lemma normalized_shape_id (shape : list Z) :
  (2 <= length shape)%nat -> normalized_shape shape = shape.
Proof.
  intros H. unfold normalized_shape.
  replace (2 - length shape)%nat with O by lia. reflexivity.
Qed.

Lemma reshape_to_2d_ranked (loc : Location) (x : Value) (shape : list Z)
  (elt : ElementType) (st : Rewriter) :
  Value_getType x = RankedTensorType shape elt ->
  exists created a,
    ConvertDotOp.reshape_to_2d loc x st = Some (a, after_creates st created) /\
    operand_normalized x created a /\
    Forall (fun r => getLoc r = loc /\ is_reshape r = true) created.
Proof.
  intros Hty. unfold ConvertDotOp.reshape_to_2d, bind, checked.
  rewrite Hty, getRank_ranked.
  destruct (Z.leb_spec 2 (Z.of_nat (length shape))) as [Hge | Hlt].
  - exists [], x. split; [reflexivity |]. split; [| constructor].
    eapply operand_passed_on; [eassumption | lia].
  - rewrite normalize_rank_ranked, create_spec.
    eexists [_], _. split; [reflexivity |]. split.
    + eapply operand_reshaped; [eassumption | lia | reflexivity | reflexivity].
    + repeat constructor.
Qed.

(** What [ConvertDotOp] does on ranked tensors: the operations it creates,
    in order, and the value it returns. *)
Lemma ConvertDotOp_ranked (old_op : Operation) (lhs rhs : Value)
  (sl sr so : list Z) (el er eo : ElementType) (st : Rewriter) :
  view old_op = xla_hlo_DotOp (RankedTensorType so eo) lhs rhs ->
  Value_getType lhs = RankedTensorType sl el ->
  Value_getType rhs = RankedTensorType sr er ->
  exists for_lhs a for_rhs b matmul product reshape result,
    ConvertDotOp.ConvertDotOp old_op st =
      Some (result,
            after_creates st (for_lhs ++ for_rhs ++ [matmul; reshape])) /\
    operand_normalized lhs for_lhs a /\
    operand_normalized rhs for_rhs b /\
    Forall (fun r => is_reshape r = true) (for_lhs ++ for_rhs) /\
    view matmul =
      TF_MatMulOp (RankedTensorType (normalized_shape so) eo) a b
                  false (bool_decide (length sr = 1%nat)) /\
    getResults matmul = [product] /\
    view reshape = xla_hlo_ReshapeOp (RankedTensorType so eo) product /\
    getResults reshape = [result].
Proof.
  intros Hv Hl Hr. unfold ConvertDotOp.ConvertDotOp. rewrite Hv.
  destruct (reshape_to_2d_ranked (getLoc old_op) lhs sl el st Hl)
    as (for_lhs & a & Ha & Hna & Hfa).
  destruct (reshape_to_2d_ranked (getLoc old_op) rhs sr er
              (after_creates st for_lhs) Hr)
    as (for_rhs & b & Hb & Hnb & Hfb).
  rewrite after_creates_app in Hb.
  set (st2 := after_creates st (for_lhs ++ for_rhs)) in *.
  set (matmul :=
         mkOp (nextHandle st2) (getLoc old_op)
           (TF_MatMulOp (RankedTensorType (normalized_shape so) eo) a b
              false (Z.of_nat (length sr) =? 1))).
  set (product :=
         OpResult (nextHandle st2) 0
           (RankedTensorType (normalized_shape so) eo)).
  set (reshape :=
         mkOp (S (nextHandle st2)) (getLoc old_op)
           (xla_hlo_ReshapeOp (RankedTensorType so eo) product)).
  exists for_lhs, a, for_rhs, b, matmul, product, reshape,
    (OpResult (S (nextHandle st2)) 0 (RankedTensorType so eo)).
  split.
  - unfold bind at 1. rewrite Ha.
    unfold bind at 1. rewrite Hb.
    rewrite Hr, getRank_ranked, normalize_rank_ranked.
    rewrite (app_assoc for_lhs for_rhs), <- after_creates_app.
    reflexivity.
  - split; [exact Hna |]. split; [exact Hnb |]. split.
    + apply Forall_app. split; eapply Forall_impl; eauto; cbn; tauto.
    + split; [| repeat split].
      cbn [view matmul]. do 2 f_equal.
      destruct (Z.eqb_spec (Z.of_nat (length sr)) 1) as [He | Hne].
      * rewrite bool_decide_eq_true_2 by lia. reflexivity.
      * rewrite bool_decide_eq_false_2 by lia. reflexivity.
Qed.

Lemma operand_normalized_rank2 (x : Value) (shape : list Z) (elt : ElementType)
  (created : list Operation) (a : Value) :
  Value_getType x = RankedTensorType shape elt ->
  (2 <= length shape)%nat ->
  operand_normalized x created a -> created = [] /\ a = x.
Proof.
  intros Hty Hlen Hn. destruct Hn as [s e Hs _ | s e r a Hs Hlt _ _].
  - split; reflexivity.
  - rewrite Hty in Hs. injection Hs as <- <-. lia.
Qed.

Lemma operand_normalized_low_rank (x : Value) (shape : list Z)
  (elt : ElementType) (created : list Operation) (a : Value) :
  Value_getType x = RankedTensorType shape elt ->
  (length shape < 2)%nat ->
  operand_normalized x created a ->
  exists reshape,
    created = [reshape] /\
    view reshape =
      xla_hlo_ReshapeOp (RankedTensorType (normalized_shape shape) elt) x /\
    getResults reshape = [a].
Proof.
  intros Hty Hlen Hn. destruct Hn as [s e Hs Hge | s e r a Hs Hlt Hv Hr].
  - rewrite Hty in Hs. injection Hs as <- <-. lia.
  - rewrite Hty in Hs. injection Hs as <- <-. exists r. repeat split; assumption.
Qed.

(** [ConvertDotOp] returns only on a contraction of ranked tensors. *)
Lemma ConvertDotOp_returns_inv (old_op : Operation) (st st' : Rewriter)
  (result : Value) :
  ConvertDotOp.ConvertDotOp old_op st = Some (result, st') ->
  exists lhs rhs sl sr so el er eo,
    view old_op = xla_hlo_DotOp (RankedTensorType so eo) lhs rhs /\
    Value_getType lhs = RankedTensorType sl el /\
    Value_getType rhs = RankedTensorType sr er.
Proof.
  unfold ConvertDotOp.ConvertDotOp.
  destruct (view old_op) as [| type lhs rhs | | | | |]; try discriminate.
  unfold ConvertDotOp.reshape_to_2d.
  destruct (Value_getType lhs) as [sl el | el] eqn:Hl; [| discriminate].
  destruct (Value_getType rhs) as [sr er | er] eqn:Hr.
  - destruct type as [so eo | eo].
    + intros _. exists lhs, rhs, sl, sr, so, el, er, eo. repeat split; assumption.
    + intros H. exfalso. revert H.
      unfold bind, checked. rewrite !getRank_ranked, !normalize_rank_ranked.
      destruct (2 <=? Z.of_nat (length sl)), (2 <=? Z.of_nat (length sr));
        cbn; discriminate.
  - intros H. exfalso. revert H.
    unfold bind, checked. rewrite !getRank_ranked, !normalize_rank_ranked.
    destruct (2 <=? Z.of_nat (length sl)); cbn; discriminate.
Qed.

(** C3. An operand of the contraction of rank 0 or 1 is reshaped to its
    shape with sizes of 1 in front up to rank 2, so that [n] becomes [1, n];
    an operand of rank 2 or more is passed on without a reshape. In
    scenario B both operands of shape [8] are reshaped to [1, 8]. *)
Theorem ConvertDotOp_normalizes_operands :
  (forall old_op lhs rhs sl sr so el er eo st,
     view old_op = xla_hlo_DotOp (RankedTensorType so eo) lhs rhs ->
     Value_getType lhs = RankedTensorType sl el ->
     Value_getType rhs = RankedTensorType sr er ->
     exists st' result for_lhs a for_rhs b matmul reshape mt ta tb,
       ConvertDotOp.ConvertDotOp old_op st = Some (result, st') /\
       createdOps st' =
         createdOps st ++ for_lhs ++ for_rhs ++ [matmul; reshape] /\
       view matmul = TF_MatMulOp mt a b ta tb /\
       operand_normalized lhs for_lhs a /\
       operand_normalized rhs for_rhs b) /\
  (forall shape : list Z,
     (length shape < 2)%nat -> length (normalized_shape shape) = 2%nat) /\
  (forall n : Z, normalized_shape [n] = [1; n]) /\
  normalized_shape [] = [1; 1] /\
  (exists st' result,
     ConvertDotOp.ConvertDotOp ScenarioB.dot (rewriter_on [ScenarioB.dot]) =
       Some (result, st') /\
     take 2 (createdOps st') =
       [mkOp 1 "b.mlir:1"
          (xla_hlo_ReshapeOp (RankedTensorType [1; 8] f32) ScenarioB.lhs);
        mkOp 2 "b.mlir:1"
          (xla_hlo_ReshapeOp (RankedTensorType [1; 8] f32) ScenarioB.rhs)]).
Proof.
  split; [| split; [| split; [| split]]].
  - intros old_op lhs rhs sl sr so el er eo st Hv Hl Hr.
    destruct (ConvertDotOp_ranked old_op lhs rhs sl sr so el er eo st Hv Hl Hr)
      as (for_lhs & a & for_rhs & b & matmul & product & reshape & result &
          Hrun & Hna & Hnb & _ & Hm & _).
    eexists _, result, for_lhs, a, for_rhs, b, matmul, reshape, _, _, _.
    split; [exact Hrun |].
    rewrite createdOps_after_creates.
    split; [reflexivity |]. split; [exact Hm |]. split; assumption.
  - apply normalized_shape_rank.
  - reflexivity.
  - reflexivity.
  - eexists _, _. split; vm_compute; reflexivity.
Qed.

Lemma ConvertDotOp_normalizes_operands_witness :
  exists st' result created,
    ConvertDotOp.ConvertDotOp ScenarioB.dot (rewriter_on [ScenarioB.dot]) =
      Some (result, st') /\
    createdOps st' = created /\ length created = 4%nat.
Proof.
  destruct (proj1 ConvertDotOp_normalizes_operands
              ScenarioB.dot ScenarioB.lhs ScenarioB.rhs [8] [8] [] f32 f32 f32
              (rewriter_on [ScenarioB.dot]) eq_refl eq_refl eq_refl)
    as (st' & result & for_lhs & a & for_rhs & b & matmul & reshape & mt &
        ta & tb & Hrun & Hc & _ & Hna & Hnb).
  exists st', result, (createdOps st').
  split; [exact Hrun |]. split; [reflexivity |].
  rewrite Hc. cbn [rewriter_on createdOps app].
  destruct (operand_normalized_low_rank ScenarioB.lhs [8] f32 _ _ eq_refl
              ltac:(cbn; lia) Hna) as (r1 & -> & _).
  destruct (operand_normalized_low_rank ScenarioB.rhs [8] f32 _ _ eq_refl
              ltac:(cbn; lia) Hnb) as (r2 & -> & _).
  reflexivity.
Defined.

(** C4. The matrix multiplication that [ConvertDotOp] creates does not
    transpose its left operand, and it transposes its right operand exactly
    when the right operand of the contraction, as it was before the
    normalization, has rank 1. In scenario B (operands [8] and [8]) the
    right operand is transposed, in scenario C ([3,4] and [4,5]) it is
    not. *)
Theorem ConvertDotOp_transpose_b :
  (forall old_op lhs rhs sl sr so el er eo st,
     view old_op = xla_hlo_DotOp (RankedTensorType so eo) lhs rhs ->
     Value_getType lhs = RankedTensorType sl el ->
     Value_getType rhs = RankedTensorType sr er ->
     exists st' result for_operands matmul reshape mt a b tb,
       ConvertDotOp.ConvertDotOp old_op st = Some (result, st') /\
       createdOps st' = createdOps st ++ for_operands ++ [matmul; reshape] /\
       Forall (fun r => is_reshape r = true) (for_operands ++ [reshape]) /\
       view matmul = TF_MatMulOp mt a b false tb /\
       (tb = true <-> length sr = 1%nat)) /\
  (exists st' result,
     ConvertDotOp.ConvertDotOp ScenarioB.dot (rewriter_on [ScenarioB.dot]) =
       Some (result, st') /\
     createdOps st' !! 2%nat =
       Some (mkOp 3 "b.mlir:1"
               (TF_MatMulOp (RankedTensorType [1; 1] f32)
                  (OpResult 1 0 (RankedTensorType [1; 8] f32))
                  (OpResult 2 0 (RankedTensorType [1; 8] f32))
                  false true))) /\
  (exists st' result,
     ConvertDotOp.ConvertDotOp ScenarioC.dot (rewriter_on [ScenarioC.dot]) =
       Some (result, st') /\
     createdOps st' !! 0%nat =
       Some (mkOp 1 "c.mlir:1"
               (TF_MatMulOp (RankedTensorType [3; 5] f32)
                  ScenarioC.lhs ScenarioC.rhs false false))).
Proof.
  split; [| split].
  - intros old_op lhs rhs sl sr so el er eo st Hv Hl Hr.
    destruct (ConvertDotOp_ranked old_op lhs rhs sl sr so el er eo st Hv Hl Hr)
      as (for_lhs & a & for_rhs & b & matmul & product & reshape & result &
          Hrun & _ & _ & Hre & Hm & _ & Hrs & _).
    eexists _, result, (for_lhs ++ for_rhs), matmul, reshape, _, a, b, _.
    split; [exact Hrun |].
    split; [rewrite createdOps_after_creates, <- !app_assoc; reflexivity |].
    split; [| split; [exact Hm |]].
    + apply Forall_app. split; [exact Hre |].
      constructor; [| constructor]. unfold is_reshape. rewrite Hrs. reflexivity.
    + apply bool_decide_eq_true.
  - eexists _, _. split; vm_compute; reflexivity.
  - eexists _, _. split; vm_compute; reflexivity.
Qed.

Lemma ConvertDotOp_transpose_b_witness :
  exists st' result created,
    ConvertDotOp.ConvertDotOp ScenarioB.dot (rewriter_on [ScenarioB.dot]) =
      Some (result, st') /\
    createdOps st' = created /\
    exists matmul mt a b, matmul ∈ created /\
      view matmul = TF_MatMulOp mt a b false true.
Proof.
  destruct (proj1 ConvertDotOp_transpose_b
              ScenarioB.dot ScenarioB.lhs ScenarioB.rhs [8] [8] [] f32 f32 f32
              (rewriter_on [ScenarioB.dot]) eq_refl eq_refl eq_refl)
    as (st' & result & for_operands & matmul & reshape & mt & a & b & tb &
        Hrun & Hc & _ & Hm & Htb).
  exists st', result, (createdOps st').
  split; [exact Hrun |]. split; [reflexivity |].
  exists matmul, mt, a, b. split.
  - rewrite Hc. cbn [rewriter_on createdOps app].
    apply elem_of_app. right. left.
  - rewrite Hm. f_equal. apply Htb. reflexivity.
Defined.

(** Scenario C, as [ConvertDotOp] leaves it: behind the matrix
    multiplication stands a reshape of its product, so that it is not true
    that no reshape at all is inserted. *)
Lemma ConvertDotOp_rank2_inserts_output_reshape :
  exists st' result reshape,
    ConvertDotOp.ConvertDotOp ScenarioC.dot (rewriter_on [ScenarioC.dot]) =
      Some (result, st') /\
    createdOps st' =
      [mkOp 1 "c.mlir:1"
         (TF_MatMulOp (RankedTensorType [3; 5] f32)
            ScenarioC.lhs ScenarioC.rhs false false);
       reshape] /\
    reshape =
      mkOp 2 "c.mlir:1"
        (xla_hlo_ReshapeOp (RankedTensorType [3; 5] f32)
           (OpResult 1 0 (RankedTensorType [3; 5] f32))) /\
    is_reshape reshape = true /\
    filter (fun op => is_reshape op = true) (createdOps st') <> [].
Proof.
  eexists _, _, _.
  split; [vm_compute; reflexivity |].
  split; [vm_compute; reflexivity |].
  split; [reflexivity |].
  split; [reflexivity |].
  vm_compute. discriminate.
Qed.

(** C5, as the code has it. On a contraction of two operands of rank 2
    [ConvertDotOp] creates no reshape of an operand. It creates one matrix
    multiplication of the two operands as they are, which transposes
    neither, and behind it one reshape of the product to the declared
    result type; where the result has rank 2 as well, that is also the type
    of the product. In scenario C (operands [3,4] and [4,5], result [3,5])
    these are a matrix multiplication of type [3,5] and a reshape of it to
    [3,5]. *)
Theorem ConvertDotOp_rank2_operands :
  (forall old_op lhs rhs sl sr so el er eo st,
     view old_op = xla_hlo_DotOp (RankedTensorType so eo) lhs rhs ->
     Value_getType lhs = RankedTensorType sl el ->
     Value_getType rhs = RankedTensorType sr er ->
     length sl = 2%nat -> length sr = 2%nat ->
     exists st' result matmul product reshape mt,
       ConvertDotOp.ConvertDotOp old_op st = Some (result, st') /\
       createdOps st' = createdOps st ++ [matmul; reshape] /\
       view matmul = TF_MatMulOp mt lhs rhs false false /\
       getResults matmul = [product] /\
       view reshape = xla_hlo_ReshapeOp (RankedTensorType so eo) product /\
       getResults reshape = [result] /\
       ((2 <= length so)%nat -> mt = RankedTensorType so eo)) /\
  (exists st' result,
     ConvertDotOp.ConvertDotOp ScenarioC.dot (rewriter_on [ScenarioC.dot]) =
       Some (result, st') /\
     createdOps st' =
       [mkOp 1 "c.mlir:1"
          (TF_MatMulOp (RankedTensorType [3; 5] f32)
             ScenarioC.lhs ScenarioC.rhs false false);
        mkOp 2 "c.mlir:1"
          (xla_hlo_ReshapeOp (RankedTensorType [3; 5] f32)
             (OpResult 1 0 (RankedTensorType [3; 5] f32)))] /\
     result = OpResult 2 0 (RankedTensorType [3; 5] f32)).
Proof.
  split.
  - intros old_op lhs rhs sl sr so el er eo st Hv Hl Hr Hsl Hsr.
    destruct (ConvertDotOp_ranked old_op lhs rhs sl sr so el er eo st Hv Hl Hr)
      as (for_lhs & a & for_rhs & b & matmul & product & reshape & result &
          Hrun & Hna & Hnb & _ & Hm & Hp & Hrs & Hres).
    destruct (operand_normalized_rank2 lhs sl el for_lhs a Hl ltac:(lia) Hna)
      as [-> ->].
    destruct (operand_normalized_rank2 rhs sr er for_rhs b Hr ltac:(lia) Hnb)
      as [-> ->].
    eexists _, result, matmul, product, reshape, _.
    split; [exact Hrun |].
    rewrite createdOps_after_creates.
    split; [reflexivity |]. split.
    { rewrite Hm. rewrite bool_decide_eq_false_2 by lia. reflexivity. }
    split; [exact Hp |]. split; [exact Hrs |]. split; [exact Hres |].
    intros Hso. rewrite normalized_shape_id by assumption. reflexivity.
  - eexists _, _. split; [vm_compute; reflexivity |].
    split; vm_compute; reflexivity.
Qed.

Lemma ConvertDotOp_rank2_operands_witness :
  exists st' result created,
    ConvertDotOp.ConvertDotOp ScenarioC.dot (rewriter_on [ScenarioC.dot]) =
      Some (result, st') /\
    createdOps st' = created /\ length created = 2%nat.
Proof.
  destruct (proj1 ConvertDotOp_rank2_operands
              ScenarioC.dot ScenarioC.lhs ScenarioC.rhs [3; 4] [4; 5] [3; 5]
              f32 f32 f32 (rewriter_on [ScenarioC.dot])
              eq_refl eq_refl eq_refl eq_refl eq_refl)
    as (st' & result & matmul & product & reshape & mt & Hrun & Hc & _).
  exists st', result, (createdOps st').
  split; [exact Hrun |]. split; [reflexivity |].
  rewrite Hc. reflexivity.
Defined.

(** C6. Whenever [ConvertDotOp] converts a contraction, the value it returns
    has the declared result type of the contraction: it is the result of
    the reshape of the matrix product to that type. On a contraction of
    ranked tensors it does return. *)
Theorem ConvertDotOp_result_type :
  (forall old_op st st' result,
     ConvertDotOp.ConvertDotOp old_op st = Some (result, st') ->
     getResultTypes old_op = [Value_getType result] /\
     exists created matmul reshape mt a b ta tb product,
       createdOps st' = createdOps st ++ created ++ [matmul; reshape] /\
       view matmul = TF_MatMulOp mt a b ta tb /\
       getResults matmul = [product] /\
       view reshape = xla_hlo_ReshapeOp (Value_getType result) product /\
       getResults reshape = [result]) /\
  (forall old_op lhs rhs sl sr so el er eo st,
     view old_op = xla_hlo_DotOp (RankedTensorType so eo) lhs rhs ->
     Value_getType lhs = RankedTensorType sl el ->
     Value_getType rhs = RankedTensorType sr er ->
     exists st' result,
       ConvertDotOp.ConvertDotOp old_op st = Some (result, st') /\
       Value_getType result = RankedTensorType so eo).
Proof.
  assert (Hmain : forall old_op lhs rhs sl sr so el er eo st,
    view old_op = xla_hlo_DotOp (RankedTensorType so eo) lhs rhs ->
    Value_getType lhs = RankedTensorType sl el ->
    Value_getType rhs = RankedTensorType sr er ->
    exists st' result created matmul reshape mt a b ta tb product,
      ConvertDotOp.ConvertDotOp old_op st = Some (result, st') /\
      Value_getType result = RankedTensorType so eo /\
      createdOps st' = createdOps st ++ created ++ [matmul; reshape] /\
      view matmul = TF_MatMulOp mt a b ta tb /\
      getResults matmul = [product] /\
      view reshape = xla_hlo_ReshapeOp (RankedTensorType so eo) product /\
      getResults reshape = [result]).
  { intros old_op lhs rhs sl sr so el er eo st Hv Hl Hr.
    destruct (ConvertDotOp_ranked old_op lhs rhs sl sr so el er eo st Hv Hl Hr)
      as (for_lhs & a & for_rhs & b & matmul & product & reshape & result &
          Hrun & _ & _ & _ & Hm & Hp & Hrs & Hres).
    eexists _, result, (for_lhs ++ for_rhs), matmul, reshape, _, a, b, _, _,
      product.
    split; [exact Hrun |].
    split.
    { unfold getResults, getResultTypes in Hres. rewrite Hrs in Hres.
      cbn in Hres. injection Hres as <-. reflexivity. }
    split; [rewrite createdOps_after_creates, <- !app_assoc; reflexivity |].
    split; [exact Hm |]. repeat split; assumption. }
  split.
  - intros old_op st st' result Hrun.
    destruct (ConvertDotOp_returns_inv old_op st st' result Hrun)
      as (lhs & rhs & sl & sr & so & el & er & eo & Hv & Hl & Hr).
    destruct (Hmain old_op lhs rhs sl sr so el er eo st Hv Hl Hr)
      as (st2 & result2 & created & matmul & reshape & mt & a & b & ta & tb &
          product & Hrun2 & Hty & Hc & Hm & Hp & Hrs & Hres).
    rewrite Hrun in Hrun2. injection Hrun2 as <- <-.
    split.
    + unfold getResultTypes. rewrite Hv, Hty. reflexivity.
    + exists created, matmul, reshape, mt, a, b, ta, tb, product.
      rewrite Hty. repeat split; assumption.
  - intros old_op lhs rhs sl sr so el er eo st Hv Hl Hr.
    destruct (Hmain old_op lhs rhs sl sr so el er eo st Hv Hl Hr)
      as (st2 & result2 & created & matmul & reshape & mt & a & b & ta & tb &
          product & Hrun2 & Hty & _).
    exists st2, result2. split; assumption.
Qed.

Lemma ConvertDotOp_result_type_witness :
  exists st' result,
    ConvertDotOp.ConvertDotOp ScenarioB.dot (rewriter_on [ScenarioB.dot]) =
      Some (result, st') /\
    getResultTypes ScenarioB.dot = [Value_getType result].
Proof.
  destruct (proj2 ConvertDotOp_result_type
              ScenarioB.dot ScenarioB.lhs ScenarioB.rhs [8] [8] [] f32 f32 f32
              (rewriter_on [ScenarioB.dot]) eq_refl eq_refl eq_refl)
    as (st' & result & Hrun & Hty).
  exists st', result. split; [exact Hrun |].
  exact (proj1 (proj1 ConvertDotOp_result_type _ _ _ _ Hrun)).
Defined.

Lemma ConvertSliceOp_size_constant_witness :
  exists st' size_attr e,
    ConvertSliceOp.matchAndRewrite
      (mkOp 0 "d.mlir:1"
         (xla_hlo_SliceOp (RankedTensorType [2] f32)
            (BlockArgument 0 (RankedTensorType [4] f32))
            (i64_vector [3]) (i64_vector [1]) (i64_vector [1])))
      (rewriter_on []) = Some (success, st') /\
    createdOps st' !! 1%nat = Some (mkOp 2 "d.mlir:1" (TF_ConstOp size_attr)) /\
    getValues size_attr !! 0%nat = Some e /\
    getSExtValue e < 0.
Proof.
  assert (Hs : splat_equal_to_1 (i64_vector [1])).
  { exists (APInt_of_i64 1). split; [exists 0%nat |]; reflexivity. }
  destruct (ConvertSliceOp_size_constant
              (mkOp 0 "d.mlir:1"
                 (xla_hlo_SliceOp (RankedTensorType [2] f32)
                    (BlockArgument 0 (RankedTensorType [4] f32))
                    (i64_vector [3]) (i64_vector [1]) (i64_vector [1])))
              _ _ _ _ _ (rewriter_on []) eq_refl Hs)
    as (st' & start & size & new_op & size_attr & Hrun & Hc & Hv & _ & _ & _ &
        Hneg).
  destruct (Hneg 0%nat (APInt_of_i64 3) (APInt_of_i64 1) eq_refl eq_refl)
    as (e & He & _ & Hlt).
  assert (Hrun' := Hrun). vm_compute in Hrun'. injection Hrun' as <-.
  cbn [createdOps rewriter_on app] in Hc.
  injection Hc as <- <- <-.
  cbn [view] in Hv. injection Hv as <-.
  eexists _, _, e. split; [exact Hrun |].
  split; [reflexivity |]. split; [exact He |].
  apply Hlt; vm_compute; [reflexivity | discriminate].
Defined.

(** ** The conversion target *)

Lemma getOpAction_target (name : OperationName) :
  getOpAction LegalizeHloToTf.target name =
  if bool_decide (getDialect name = TensorFlowDialect \/
                  name = CallOp \/ name = ConstantOp)
  then Some Legal else None.
Proof.
  unfold getOpAction, LegalizeHloToTf.target, addLegalOp, addLegalDialect,
    setOpAction, setDialectAction, newTarget.
  cbn [legalOperations legalDialects].
  destruct (decide (name = ConstantOp)) as [-> | Hc].
  { rewrite lookup_insert_eq. reflexivity. }
  rewrite lookup_insert_ne by congruence.
  destruct (decide (name = CallOp)) as [-> | Hk].
  { rewrite lookup_insert_eq. reflexivity. }
  rewrite lookup_insert_ne by congruence.
  rewrite lookup_empty.
  destruct (decide (getDialect name = TensorFlowDialect)) as [Hd | Hd].
  - rewrite Hd, lookup_insert_eq.
    rewrite bool_decide_eq_true_2 by tauto. reflexivity.
  - rewrite lookup_insert_ne by congruence. rewrite lookup_empty.
    rewrite bool_decide_eq_false_2 by tauto. reflexivity.
Qed.

(** The target of the pass marks nothing as illegal. *)
Lemma nothing_marked_illegal (op : Operation) :
  isIllegal LegalizeHloToTf.target op = false.
Proof.
  unfold isIllegal. rewrite getOpAction_target.
  apply bool_decide_eq_false_2. case_bool_decide; discriminate.
Qed.

(** C7. The classifier of the pass looks at nothing but the name of the
    operation, its dialect and its kind. The target names one dialect as
    legal, the TensorFlow dialect, and two single operations, the call and
    the constant of the standard dialect. An operation is legal exactly when
    it belongs to that dialect or is one of the two; every other operation
    is not legal. *)
Theorem target_classifies_by_name :
  (forall d a,
     legalDialects LegalizeHloToTf.target !! d = Some a <->
     d = TensorFlowDialect /\ a = Legal) /\
  (forall n a,
     legalOperations LegalizeHloToTf.target !! n = Some a <->
     (n = CallOp \/ n = ConstantOp) /\ a = Legal) /\
  (forall op,
     isLegal LegalizeHloToTf.target op = true <->
     getDialect (getName op) = TensorFlowDialect \/
     getName op = CallOp \/ getName op = ConstantOp) /\
  (forall op,
     getDialect (getName op) <> TensorFlowDialect ->
     getName op <> CallOp -> getName op <> ConstantOp ->
     isLegal LegalizeHloToTf.target op = false) /\
  (forall op1 op2,
     getName op1 = getName op2 ->
     isLegal LegalizeHloToTf.target op1 = isLegal LegalizeHloToTf.target op2).
Proof.
  assert (Hlegal : forall op,
    isLegal LegalizeHloToTf.target op = true <->
    getDialect (getName op) = TensorFlowDialect \/
    getName op = CallOp \/ getName op = ConstantOp).
  { intros op. unfold isLegal. rewrite getOpAction_target.
    rewrite bool_decide_eq_true. case_bool_decide; split; try tauto.
    discriminate. }
  split; [| split; [| split; [exact Hlegal | split]]].
  - intros d a.
    unfold LegalizeHloToTf.target, addLegalOp, addLegalDialect,
      setOpAction, setDialectAction, newTarget.
    cbn [legalDialects].
    rewrite lookup_insert_Some, lookup_empty. split.
    + intros [[<- <-] | [_ H]]; [tauto | discriminate].
    + intros [-> ->]. left. tauto.
  - intros n a.
    unfold LegalizeHloToTf.target, addLegalOp, addLegalDialect,
      setOpAction, setDialectAction, newTarget.
    cbn [legalOperations].
    rewrite !lookup_insert_Some, lookup_empty. split.
    + intros [[<- <-] | [_ [[<- <-] | [_ H]]]]; [tauto | tauto | discriminate].
    + intros [[-> | ->] ->]; [right; split; [discriminate | left; tauto] |
                              left; tauto].
  - intros op Hd Hc Hk.
    destruct (isLegal LegalizeHloToTf.target op) eqn:E; [| reflexivity].
    apply Hlegal in E. tauto.
  - intros op1 op2 Hn. unfold isLegal. rewrite Hn. reflexivity.
Qed.

Lemma target_classifies_by_name_witness :
  isLegal LegalizeHloToTf.target ScenarioA.stride_2_1 = false /\
  isLegal LegalizeHloToTf.target
    (mkOp 7 "e.mlir:1" (OtherOp ConstantOp [] [RankedTensorType [] f32])) = true.
Proof.
  split.
  - apply (proj1 (proj2 (proj2 (proj2 target_classifies_by_name))));
      vm_compute; discriminate.
  - apply (proj1 (proj2 (proj2 target_classifies_by_name))).
    right. right. reflexivity.
Defined.

(** ** The pass and the conversion driver *)

Lemma runOnFunction_reports (driver : Driver) (generated : list Pattern)
  (function : list Operation) :
  LegalizeHloToTf.runOnFunction driver generated function =
  match driver function LegalizeHloToTf.target
          (generated ++ [ConvertSliceOp.matchAndRewrite]) with
  | Some (failure, ops') =>
      Some (LegalizeHloToTf.mkPassResult ops'
              ["xla_hlo to TF legalization failed."] true)
  | Some (success, ops') => Some (LegalizeHloToTf.mkPassResult ops' [] false)
  | None => None
  end.
Proof.
  unfold LegalizeHloToTf.runOnFunction.
  destruct (driver _ _ _) as [[[|] ops'] |]; reflexivity.
Qed.

(** Under a driver that fails only over operations marked illegal, the
    conversion to the target of the pass does not fail. *)
Lemma driver_does_not_fail (driver : Driver) (generated : list Pattern)
  (function ops' : list Operation) :
  fails_only_on_illegal driver ->
  driver function LegalizeHloToTf.target
    (generated ++ [ConvertSliceOp.matchAndRewrite]) <> Some (failure, ops').
Proof.
  intros Hc Hf. destruct (Hc _ _ _ _ Hf) as [op Hop].
  rewrite nothing_marked_illegal in Hop. discriminate.
Qed.

Lemma pass_does_not_fail (driver : Driver) (generated : list Pattern)
  (function : list Operation) (r : LegalizeHloToTf.PassResult) :
  fails_only_on_illegal driver ->
  LegalizeHloToTf.runOnFunction driver generated function = Some r ->
  r = LegalizeHloToTf.mkPassResult (LegalizeHloToTf.functionBody r) [] false /\
  driver function LegalizeHloToTf.target
    (generated ++ [ConvertSliceOp.matchAndRewrite]) =
    Some (success, LegalizeHloToTf.functionBody r).
Proof.
  intros Hc. rewrite runOnFunction_reports.
  destruct (driver _ _ _) as [[[|] ops'] |] eqn:Hd; try discriminate.
  - intros H. injection H as <-. split; reflexivity.
  - exfalso. exact (driver_does_not_fail _ _ _ _ Hc Hd).
Qed.

Lemma converts_nothing_meets_the_contract :
  fails_only_on_illegal converts_nothing /\
  keeps_legal_functions converts_nothing.
Proof.
  split.
  - intros ops target patterns ops' H. discriminate.
  - intros ops target patterns _. reflexivity.
Qed.

(** The strided slice of scenario A with strides [2,1] is not legal, and
    [ConvertSliceOp] does not apply to it. Whatever patterns are generated,
    as long as none of them applies to it either, and whatever the driver,
    as long as it fails only over operations marked illegal, there is no
    run of the pass on this slice that signals failure or emits an error.
    Such a driver exists, and with it the pass ends without an error and
    leaves the slice in the function. *)
Lemma unconverted_slice_does_not_fail_the_pass :
  isLegal LegalizeHloToTf.target ScenarioA.stride_2_1 = false /\
  not_applicable ConvertSliceOp.matchAndRewrite ScenarioA.stride_2_1 /\
  (forall driver (generated : list Pattern),
     fails_only_on_illegal driver ->
     (forall p, p ∈ generated -> not_applicable p ScenarioA.stride_2_1) ->
     ~ exists r,
         LegalizeHloToTf.runOnFunction driver generated
           [ScenarioA.stride_2_1] = Some r /\
         (LegalizeHloToTf.passFailed r = true \/
          LegalizeHloToTf.emittedErrors r <> [])) /\
  (exists driver,
     fails_only_on_illegal driver /\ keeps_legal_functions driver /\
     LegalizeHloToTf.runOnFunction driver [] [ScenarioA.stride_2_1] =
       Some (LegalizeHloToTf.mkPassResult [ScenarioA.stride_2_1] [] false)).
Proof.
  split; [vm_compute; reflexivity |]. split; [| split].
  - intros st. exists st.
    apply (matchAndRewrite_gives_up ScenarioA.stride_2_1 _ _ _ _ _ eq_refl).
    vm_compute. reflexivity.
  - intros driver generated Hc _ (r & Hrun & Hbad).
    destruct (pass_does_not_fail _ _ _ _ Hc Hrun) as [Hr _].
    rewrite Hr in Hbad. cbn in Hbad.
    destruct Hbad as [H | H]; [discriminate | apply H; reflexivity].
  - exists converts_nothing.
    destruct converts_nothing_meets_the_contract as [H1 H2].
    split; [exact H1 |]. split; [exact H2 | reflexivity].
Qed.

(** C8, as the code has it. The pass hands the function, its target and
    its patterns (the generated ones and [ConvertSliceOp]) to
    [applyPartialConversion] and reports what comes back: on failure it
    emits the error "xla_hlo to TF legalization failed." on the function
    and signals failure, on success it emits nothing and signals nothing,
    and in both cases the function is as the driver left it. The target
    marks no operation as illegal. With a driver that, as a partial
    conversion does, fails only over an operation marked illegal, no run of
    the pass signals failure: an operation that is not legal and to which
    no pattern applies (the strided slice with strides [2,1], say) does not
    make the conversion of the function fail. With a driver that does not
    touch legal operations, a function of legal operations only is left as
    it is, and the pass succeeds. The two properties of the driver are
    assumptions on [mlir::applyPartialConversion]. *)
Theorem runOnFunction_partial_conversion :
  (forall (applyPartialConversion : Driver) (generated : list Pattern)
          function ops',
     (applyPartialConversion function LegalizeHloToTf.target
        (generated ++ [ConvertSliceOp.matchAndRewrite]) =
        Some (failure, ops') ->
      LegalizeHloToTf.runOnFunction applyPartialConversion generated function =
        Some (LegalizeHloToTf.mkPassResult ops'
                ["xla_hlo to TF legalization failed."] true)) /\
     (applyPartialConversion function LegalizeHloToTf.target
        (generated ++ [ConvertSliceOp.matchAndRewrite]) =
        Some (success, ops') ->
      LegalizeHloToTf.runOnFunction applyPartialConversion generated function =
        Some (LegalizeHloToTf.mkPassResult ops' [] false)) /\
     (applyPartialConversion function LegalizeHloToTf.target
        (generated ++ [ConvertSliceOp.matchAndRewrite]) = None ->
      LegalizeHloToTf.runOnFunction applyPartialConversion generated function =
        None)) /\
  (forall op, isIllegal LegalizeHloToTf.target op = false) /\
  (forall applyPartialConversion : Driver,
     fails_only_on_illegal applyPartialConversion ->
     forall (generated : list Pattern) function r,
       LegalizeHloToTf.runOnFunction applyPartialConversion generated
         function = Some r ->
       LegalizeHloToTf.passFailed r = false /\
       LegalizeHloToTf.emittedErrors r = [] /\
       applyPartialConversion function LegalizeHloToTf.target
         (generated ++ [ConvertSliceOp.matchAndRewrite]) =
         Some (success, LegalizeHloToTf.functionBody r)) /\
  (forall applyPartialConversion : Driver,
     fails_only_on_illegal applyPartialConversion ->
     forall (generated : list Pattern) function op,
       op ∈ function ->
       isLegal LegalizeHloToTf.target op = false ->
       (forall p, p ∈ generated ++ [ConvertSliceOp.matchAndRewrite] ->
                  not_applicable p op) ->
       ~ exists r,
           LegalizeHloToTf.runOnFunction applyPartialConversion generated
             function = Some r /\
           (LegalizeHloToTf.passFailed r = true \/
            LegalizeHloToTf.emittedErrors r <> [])) /\
  (forall applyPartialConversion : Driver,
     keeps_legal_functions applyPartialConversion ->
     forall (generated : list Pattern) function,
       Forall (fun op => isLegal LegalizeHloToTf.target op = true) function ->
       LegalizeHloToTf.runOnFunction applyPartialConversion generated
         function =
         Some (LegalizeHloToTf.mkPassResult function [] false)).
Proof.
  split; [| split; [| split; [| split]]].
  - intros driver generated function ops'.
    repeat split; intros H; rewrite runOnFunction_reports, H; reflexivity.
  - exact nothing_marked_illegal.
  - intros driver Hc generated function r Hrun.
    destruct (pass_does_not_fail _ _ _ _ Hc Hrun) as [Hr Hd].
    rewrite Hr. cbn. split; [reflexivity |]. split; [reflexivity |].
    rewrite Hr in Hd. exact Hd.
  - intros driver Hc generated function op _ _ _ (r & Hrun & Hbad).
    destruct (pass_does_not_fail _ _ _ _ Hc Hrun) as [Hr _].
    rewrite Hr in Hbad. cbn in Hbad.
    destruct Hbad as [H | H]; [discriminate | apply H; reflexivity].
  - intros driver Hk generated function Hlegal.
    rewrite runOnFunction_reports, (Hk _ _ _ Hlegal). reflexivity.
Qed.

Lemma runOnFunction_partial_conversion_witness :
  fails_only_on_illegal converts_nothing /\
  keeps_legal_functions converts_nothing /\
  (~ exists r,
       LegalizeHloToTf.runOnFunction converts_nothing []
         [ScenarioA.stride_2_1] = Some r /\
       (LegalizeHloToTf.passFailed r = true \/
        LegalizeHloToTf.emittedErrors r <> [])) /\
  LegalizeHloToTf.runOnFunction converts_nothing []
    [mkOp 0 "g.mlir:1" (OtherOp ConstantOp [] [RankedTensorType [] f32]);
     mkOp 1 "g.mlir:2"
       (OtherOp CallOp [OpResult 0 0 (RankedTensorType [] f32)] [])] =
    Some (LegalizeHloToTf.mkPassResult
            [mkOp 0 "g.mlir:1"
               (OtherOp ConstantOp [] [RankedTensorType [] f32]);
             mkOp 1 "g.mlir:2"
               (OtherOp CallOp [OpResult 0 0 (RankedTensorType [] f32)] [])]
            [] false) /\
  LegalizeHloToTf.runOnFunction (fun ops _ _ => Some (failure, ops)) []
    [ScenarioA.stride_2_1] =
    Some (LegalizeHloToTf.mkPassResult [ScenarioA.stride_2_1]
            ["xla_hlo to TF legalization failed."] true).
Proof.
  destruct converts_nothing_meets_the_contract as [H1 H2].
  split; [exact H1 |]. split; [exact H2 |].
  pose proof runOnFunction_partial_conversion
    as (Hreport & _ & _ & Hno & Hlegal).
  split; [| split].
  - apply (Hno converts_nothing H1 [] [ScenarioA.stride_2_1]
             ScenarioA.stride_2_1).
    + left.
    + vm_compute. reflexivity.
    + intros p Hp st. apply list_elem_of_singleton in Hp. subst p.
      exists st.
      apply (matchAndRewrite_gives_up ScenarioA.stride_2_1 _ _ _ _ _ eq_refl).
      vm_compute. reflexivity.
  - apply (Hlegal converts_nothing H2). repeat constructor.
  - apply (proj1 (Hreport (fun ops _ _ => Some (failure, ops)) []
                    [ScenarioA.stride_2_1] [ScenarioA.stride_2_1])).
    reflexivity.
Defined.

(** * Further properties of the file *)

(** ** [normalize_rank] *)

Lemma numElements_app (l k : list Z) :
  numElements (l ++ k) = numElements l * numElements k.
Proof.
  unfold numElements. induction l as [| x l IH]; cbn [foldr app].
  - lia.
  - rewrite IH. lia.
Qed.

Lemma numElements_ones (n : nat) : numElements (replicate n 1) = 1.
Proof.
  unfold numElements. induction n as [| n IH]; cbn [foldr replicate].
  - reflexivity.
  - rewrite IH. reflexivity.
Qed.

Lemma numElements_normalized (shape : list Z) :
  numElements (normalized_shape shape) = numElements shape.
Proof.
  unfold normalized_shape. rewrite numElements_app, numElements_ones. lia.
Qed.

Lemma normalized_shape_length (shape : list Z) :
  length (normalized_shape shape) = Nat.max 2 (length shape).
Proof.
  unfold normalized_shape. rewrite length_app, length_replicate. lia.
Qed.

(** X1. [normalize_rank] keeps what a reshape has to keep. On a ranked type
    it returns a ranked type of the same element type and with the same
    number of elements, whose rank is the larger of 2 and the old rank and
    whose shape is the old shape behind sizes of 1. On an unranked type it
    has no result. *)
Theorem normalize_rank_keeps_elements :
  (forall shape elt,
     exists ones,
       ConvertDotOp.normalize_rank (RankedTensorType shape elt) =
         Some (RankedTensorType (ones ++ shape) elt) /\
       Forall (fun d => d = 1) ones /\
       length (ones ++ shape) = Nat.max 2 (length shape) /\
       numElements (ones ++ shape) = numElements shape) /\
  (forall elt,
     ConvertDotOp.normalize_rank (UnrankedTensorType elt) = None).
Proof.
  split; [| reflexivity].
  intros shape elt. exists (replicate (2 - length shape) 1).
  split; [apply normalize_rank_ranked |].
  split; [apply Forall_forall; intros d Hd;
          apply elem_of_replicate in Hd; tauto |].
  split; [apply normalized_shape_length | apply numElements_normalized].
Qed.

(** X2. [normalize_rank] is idempotent: a type it returns is returned
    unchanged when it is normalized again. *)
Theorem normalize_rank_idempotent :
  forall type type',
    ConvertDotOp.normalize_rank type = Some type' ->
    ConvertDotOp.normalize_rank type' = Some type'.
Proof.
  intros [shape elt | elt] type' H; [| discriminate].
  rewrite normalize_rank_ranked in H. injection H as <-.
  rewrite normalize_rank_ranked. do 2 f_equal.
  apply normalized_shape_id. rewrite normalized_shape_length. lia.
Qed.

Lemma normalize_rank_idempotent_witness :
  ConvertDotOp.normalize_rank (RankedTensorType [8] f32) =
    Some (RankedTensorType [1; 8] f32) /\
  ConvertDotOp.normalize_rank (RankedTensorType [1; 8] f32) =
    Some (RankedTensorType [1; 8] f32).
Proof.
  split; [reflexivity |].
  apply (normalize_rank_idempotent (RankedTensorType [8] f32)). reflexivity.
Defined.

(** ** [AreBroadcastCompatible] *)

Lemma broadcastedDim_compatible (d1 d2 : Z) :
  is_Some (broadcastedDim d1 d2) <-> dims_compatible d1 d2.
Proof.
  unfold broadcastedDim, dims_compatible.
  destruct (Z.eqb_spec d1 (-1)) as [-> | H1]; cbn [orb].
  { split; [intros _; tauto | intros _; eexists; reflexivity]. }
  destruct (Z.eqb_spec d2 (-1)) as [-> | H2]; cbn [orb].
  { split; [intros _; tauto | intros _; eexists; reflexivity]. }
  destruct (Z.eqb_spec d1 d2) as [-> | H12]; cbn [orb].
  { split; [intros _; tauto | intros _; eexists; reflexivity]. }
  destruct (Z.eqb_spec d2 1) as [-> | H21].
  { split; [intros _; tauto | intros _; eexists; reflexivity]. }
  destruct (Z.eqb_spec d1 1) as [-> | H11].
  { split; [intros _; tauto | intros _; eexists; reflexivity]. }
  split; [intros [z Hz]; discriminate | intros H; exfalso; lia].
Qed.

Lemma broadcastedTail_compatible (r1 r2 result : list Z) :
  (Nat.min (length r1) (length r2) <= length result)%nat ->
  is_Some (broadcastedTail r1 r2 result) <->
  forall i d1 d2,
    r1 !! i = Some d1 -> r2 !! i = Some d2 -> dims_compatible d1 d2.
Proof.
  revert r2 result. induction r1 as [| d1 t1 IH]; intros r2 result Hlen.
  { cbn. split; [intros _ i a b Ha; discriminate |
                 intros _; eexists; reflexivity]. }
  destruct r2 as [| d2 t2].
  { cbn. split; [intros _ i a b _ Hb; discriminate |
                 intros _; eexists; reflexivity]. }
  destruct result as [| dR tR]; [cbn in Hlen; lia |].
  cbn [broadcastedTail].
  assert (Hlen' : (Nat.min (length t1) (length t2) <= length tR)%nat)
    by (cbn in Hlen; lia).
  specialize (IH t2 tR Hlen').
  split.
  - intros Hs i a b Ha Hb.
    destruct (broadcastedDim d1 d2) as [d |] eqn:Hd;
      [| destruct Hs as [? Hs]; discriminate].
    destruct (broadcastedTail t1 t2 tR) as [tl |] eqn:Ht;
      [| destruct Hs as [? Hs]; discriminate].
    destruct i as [| i]; cbn in Ha, Hb.
    + injection Ha as <-. injection Hb as <-.
      apply broadcastedDim_compatible. rewrite Hd. eexists; reflexivity.
    + apply (proj1 IH ltac:(eexists; reflexivity) i a b Ha Hb).
  - intros Hall.
    destruct (proj2 (broadcastedDim_compatible d1 d2)
                (Hall 0%nat d1 d2 eq_refl eq_refl)) as [d ->].
    destruct (proj2 IH (fun i a b Ha Hb => Hall (S i) a b Ha Hb)) as [tl ->].
    eexists; reflexivity.
Qed.

Lemma getBroadcastedShape_compatible (shape1 shape2 : list Z) :
  (getBroadcastedShape shape1 shape2).1 = true <->
  forall i d1 d2,
    reverse shape1 !! i = Some d1 -> reverse shape2 !! i = Some d2 ->
    dims_compatible d1 d2.
Proof.
  unfold getBroadcastedShape.
  set (result := reverse (if (length shape2 <? length shape1)%nat
                          then shape1 else shape2)).
  rewrite <- (broadcastedTail_compatible _ _ result).
  - destruct (broadcastedTail _ _ _) as [r |]; cbn [fst]; split.
    + intros _. eexists. reflexivity.
    + intros _. reflexivity.
    + discriminate.
    + intros H. exfalso. eapply is_Some_None. exact H.
  - unfold result. rewrite !length_reverse.
    destruct (Nat.ltb_spec (length shape2) (length shape1)); lia.
Qed.

(** X3. What [AreBroadcastCompatible] decides on two ranked tensors: the
    shapes are lined up at their last dimension, and every pair of
    dimensions that meet has to be equal, or contain a 1, or contain an
    unknown size. Dimensions that only the longer shape has are not
    looked at. *)
Theorem AreBroadcastCompatible_ranked :
  forall x y x_shape x_elt y_shape y_elt,
    Value_getType x = RankedTensorType x_shape x_elt ->
    Value_getType y = RankedTensorType y_shape y_elt ->
    (AreBroadcastCompatible x y = true <->
     forall i d1 d2,
       reverse x_shape !! i = Some d1 -> reverse y_shape !! i = Some d2 ->
       dims_compatible d1 d2).
Proof.
  intros x y sx ex sy ey Hx Hy. unfold AreBroadcastCompatible.
  rewrite Hx, Hy. cbn [asRankedTensorType].
  apply getBroadcastedShape_compatible.
Qed.

Lemma AreBroadcastCompatible_ranked_witness :
  AreBroadcastCompatible
    (BlockArgument 0 (RankedTensorType [2; 1; 3] f32))
    (BlockArgument 1 (RankedTensorType [4; 3] f32)) = true /\
  AreBroadcastCompatible
    (BlockArgument 0 (RankedTensorType [2; 3] f32))
    (BlockArgument 1 (RankedTensorType [4; 3] f32)) = false.
Proof.
  split.
  - apply (proj2 (AreBroadcastCompatible_ranked
                    (BlockArgument 0 (RankedTensorType [2; 1; 3] f32))
                    (BlockArgument 1 (RankedTensorType [4; 3] f32))
                    _ _ _ _ eq_refl eq_refl)).
    intros [| [| [| i]]] d1 d2 H1 H2; vm_compute in H1, H2;
      try discriminate; injection H1 as <-; injection H2 as <-;
      unfold dims_compatible; lia.
  - apply not_true_is_false. intros H.
    pose proof (proj1 (AreBroadcastCompatible_ranked
                         (BlockArgument 0 (RankedTensorType [2; 3] f32))
                         (BlockArgument 1 (RankedTensorType [4; 3] f32))
                         _ _ _ _ eq_refl eq_refl) H 1%nat 2 4
                  eq_refl eq_refl) as Hc.
    unfold dims_compatible in Hc. lia.
Defined.

Lemma dims_compatible_sym (d1 d2 : Z) :
  dims_compatible d1 d2 -> dims_compatible d2 d1.
Proof. unfold dims_compatible. intros H. lia. Qed.

(** X4. [AreBroadcastCompatible] is symmetric. *)
Theorem AreBroadcastCompatible_sym :
  forall x y, AreBroadcastCompatible x y = AreBroadcastCompatible y x.
Proof.
  intros x y.
  destruct (Value_getType x) as [sx ex | ex] eqn:Hx;
    destruct (Value_getType y) as [sy ey | ey] eqn:Hy;
    try (unfold AreBroadcastCompatible; rewrite Hx, Hy; reflexivity).
  pose proof (AreBroadcastCompatible_ranked x y sx ex sy ey Hx Hy) as Hxy.
  pose proof (AreBroadcastCompatible_ranked y x sy ey sx ex Hy Hx) as Hyx.
  destruct (AreBroadcastCompatible x y) eqn:E1;
    destruct (AreBroadcastCompatible y x) eqn:E2; try reflexivity.
  - assert (H : false = true); [| discriminate].
    apply Hyx. intros i d1 d2 H1 H2.
    apply dims_compatible_sym. apply (proj1 Hxy eq_refl i d2 d1 H2 H1).
  - assert (H : false = true); [| discriminate].
    apply Hxy. intros i d1 d2 H1 H2.
    apply dims_compatible_sym. apply (proj1 Hyx eq_refl i d2 d1 H2 H1).
Qed.

(** X5. A value of unranked type is compatible with every value, and so is
    a tensor all of whose sizes are 1, of whatever rank (a scalar among
    them); a ranked tensor is compatible with itself and with every tensor
    of its shape, whatever the element types. *)
Theorem AreBroadcastCompatible_always :
  (forall x y elt,
     Value_getType x = UnrankedTensorType elt ->
     AreBroadcastCompatible x y = true /\ AreBroadcastCompatible y x = true) /\
  (forall x y shape elt,
     Value_getType x = RankedTensorType shape elt ->
     Forall (fun d => d = 1) shape ->
     AreBroadcastCompatible x y = true /\ AreBroadcastCompatible y x = true) /\
  (forall x y shape x_elt y_elt,
     Value_getType x = RankedTensorType shape x_elt ->
     Value_getType y = RankedTensorType shape y_elt ->
     AreBroadcastCompatible x y = true).
Proof.
  split; [| split].
  - intros x y elt Hx.
    assert (H : AreBroadcastCompatible x y = true).
    { unfold AreBroadcastCompatible. rewrite Hx. reflexivity. }
    split; [exact H |]. rewrite AreBroadcastCompatible_sym. exact H.
  - intros x y shape elt Hx Hones.
    assert (H : AreBroadcastCompatible x y = true).
    { destruct (Value_getType y) as [sy ey | ey] eqn:Hy.
      - apply (AreBroadcastCompatible_ranked x y shape elt sy ey Hx Hy).
        intros i d1 d2 H1 H2.
        assert (Hin : d1 ∈ shape).
        { apply elem_of_reverse. eapply list_elem_of_lookup_2. exact H1. }
        rewrite Forall_forall in Hones. rewrite (Hones d1 Hin).
        unfold dims_compatible. tauto.
      - unfold AreBroadcastCompatible. rewrite Hx, Hy. reflexivity. }
    split; [exact H |]. rewrite AreBroadcastCompatible_sym. exact H.
  - intros x y shape ex ey Hx Hy.
    apply (AreBroadcastCompatible_ranked x y shape ex shape ey Hx Hy).
    intros i d1 d2 H1 H2. rewrite H1 in H2. injection H2 as <-.
    unfold dims_compatible. tauto.
Qed.

Lemma AreBroadcastCompatible_always_witness :
  AreBroadcastCompatible
    (BlockArgument 0 (RankedTensorType [1; 1] f32))
    (BlockArgument 1 (RankedTensorType [7; 5; 3] i64)) = true /\
  AreBroadcastCompatible
    (BlockArgument 0 (UnrankedTensorType f32))
    (BlockArgument 1 (RankedTensorType [7; 5; 3] i64)) = true /\
  AreBroadcastCompatible
    (BlockArgument 0 (RankedTensorType [-1; 3] f32))
    (BlockArgument 1 (RankedTensorType [-1; 3] i64)) = true.
Proof.
  split; [| split].
  - apply (proj1 (proj2 AreBroadcastCompatible_always)
             (BlockArgument 0 (RankedTensorType [1; 1] f32)) _ [1; 1] f32
             eq_refl).
    repeat constructor.
  - apply (proj1 AreBroadcastCompatible_always
             (BlockArgument 0 (UnrankedTensorType f32)) _ f32 eq_refl).
  - apply (proj2 (proj2 AreBroadcastCompatible_always)
             (BlockArgument 0 (RankedTensorType [-1; 3] f32))
             (BlockArgument 1 (RankedTensorType [-1; 3] i64))
             [-1; 3] f32 i64 eq_refl eq_refl).
Defined.

(** ** [ShapeToConst] *)

Lemma signed_values_get (ty : ShapedType) (values : list Z) :
  Forall is_i64 values ->
  signed_values (DenseIntElementsAttr_get ty values) = values.
Proof.
  intros H. unfold signed_values, DenseIntElementsAttr_get. cbn [getValues].
  induction H as [| v vs Hv _ IH]; [reflexivity |].
  rewrite !fmap_cons, IH, getSExtValue_of_i64, wrap_i64_in_range by exact Hv.
  reflexivity.
Qed.

(** X6. [ShapeToConst] writes the shape of a ranked value into a constant
    and the shape can be read back from it: the attribute is a
    one-dimensional tensor of 64-bit integers with one element per
    dimension, and its elements, read as signed numbers, are the sizes of
    the dimensions in order, an unknown size as -1. It is the value of a
    [std.constant] whose result has the type of the attribute. A value of
    rank 0 gives a constant of no elements. *)
Theorem ShapeToConst_round_trip :
  forall value shape elt st,
    Value_getType value = RankedTensorType shape elt ->
    Forall is_i64 shape ->
    exists op attr st',
      ShapeToConst value st = Some ((op, attr), st') /\
      signed_values attr = shape /\
      attr_type attr =
        RankedTensorType [Z.of_nat (length shape)] (IntegerType 64) /\
      length (getValues attr) = length shape /\
      Forall (fun e => getBitWidth e = 64) (getValues attr) /\
      getName op = ConstantOp /\
      getResultTypes op = [attr_type attr].
Proof.
  intros value shape elt st Hty Hr.
  unfold ShapeToConst, bind, checked, Value_getLoc. rewrite Hty.
  cbn [getShape]. rewrite create_spec.
  eexists _, _, _. split; [reflexivity |].
  split; [apply signed_values_get; exact Hr |].
  split; [reflexivity |].
  unfold DenseIntElementsAttr_get. cbn [getValues].
  split; [apply length_fmap |].
  split; [| split; reflexivity].
  apply Forall_fmap, Forall_forall. reflexivity.
Qed.

Lemma ShapeToConst_round_trip_witness :
  exists op attr st',
    ShapeToConst (BlockArgument 0 (RankedTensorType [-1; 224; 3] f32))
      (rewriter_on []) = Some ((op, attr), st') /\
    signed_values attr = [-1; 224; 3].
Proof.
  destruct (ShapeToConst_round_trip
              (BlockArgument 0 (RankedTensorType [-1; 224; 3] f32))
              [-1; 224; 3] f32 (rewriter_on []) eq_refl)
    as (op & attr & st' & Hrun & Hs & _).
  { repeat constructor; unfold is_i64; lia. }
  exists op, attr, st'. split; assumption.
Defined.

Lemma isLegal_by_name (op : Operation) :
  isLegal LegalizeHloToTf.target op =
  bool_decide (getDialect (getName op) = TensorFlowDialect \/
               getName op = CallOp \/ getName op = ConstantOp).
Proof.
  unfold isLegal. apply bool_decide_ext.
  rewrite getOpAction_target.
  case_bool_decide as H; split; try tauto; discriminate.
Qed.

(** X7. Around the constant, [ShapeToConst] changes nothing: it creates one
    operation, at the insertion point and with a fresh handle, and records
    no replacement. The operation is legal for the target of the pass. It
    carries the location of the operation that defines the value, and no
    known location when the value is an argument of the function. On a
    value of unranked type [ShapeToConst] has no result. *)
Theorem ShapeToConst_creates_one_legal_constant :
  (forall value st op attr st',
     ShapeToConst value st = Some ((op, attr), st') ->
     st' = after_create st op /\
     createdOps st' = createdOps st ++ [op] /\
     replacements st' = replacements st /\
     op_id op = nextHandle st /\
     isLegal LegalizeHloToTf.target op = true) /\
  (forall value st op attr st' def i owner index type,
     ShapeToConst value st = Some ((op, attr), st') ->
     value = OpResult owner index type ->
     list_find (fun o => op_id o = owner) (body st) = Some (i, def) ->
     getLoc op = getLoc def) /\
  (forall index type st op attr st',
     ShapeToConst (BlockArgument index type) st = Some ((op, attr), st') ->
     getLoc op = UnknownLoc) /\
  (forall value elt st,
     Value_getType value = UnrankedTensorType elt ->
     ShapeToConst value st = None).
Proof.
  split; [| split; [| split]].
  - intros value st op attr st'.
    unfold ShapeToConst, bind, checked, Value_getLoc.
    destruct (getShape (Value_getType value)) as [shape |]; [| discriminate].
    rewrite create_spec. cbn [ret]. intros H. injection H as <- _ <-.
    do 4 (split; [reflexivity |]).
    rewrite isLegal_by_name. apply bool_decide_eq_true_2.
    right. right. reflexivity.
  - intros value st op attr st' def i owner index type Hrun -> Hfind.
    revert Hrun. unfold ShapeToConst, bind, checked, Value_getLoc.
    destruct (getShape _) as [shape |]; [| discriminate].
    rewrite Hfind, create_spec. cbn [ret].
    intros H. injection H as <- _ _. reflexivity.
  - intros index type st op attr st'.
    unfold ShapeToConst, bind, checked, Value_getLoc.
    destruct (getShape _) as [shape |]; [| discriminate].
    rewrite create_spec. cbn [ret].
    intros H. injection H as <- _ _. reflexivity.
  - intros value elt st Hty.
    unfold ShapeToConst, bind, checked. rewrite Hty. reflexivity.
Qed.

Lemma ShapeToConst_creates_one_legal_constant_witness :
  exists op attr st',
    ShapeToConst (OpResult 0 0 (RankedTensorType [4; 2] f32))
      (rewriter_on [ScenarioA.unit_stride]) = Some ((op, attr), st') /\
    getLoc op = "a.mlir:1" /\
    isLegal LegalizeHloToTf.target op = true.
Proof.
  destruct (ShapeToConst (OpResult 0 0 (RankedTensorType [4; 2] f32))
              (rewriter_on [ScenarioA.unit_stride]))
    as [[[op attr] st'] |] eqn:Hrun; [| vm_compute in Hrun; discriminate].
  exists op, attr, st'. split; [reflexivity |]. split.
  - apply (proj1 (proj2 ShapeToConst_creates_one_legal_constant)
             _ _ _ _ _ ScenarioA.unit_stride 0%nat 0%nat 0%nat
             (RankedTensorType [4; 2] f32) Hrun eq_refl).
    vm_compute. reflexivity.
  - apply (proj1 ShapeToConst_creates_one_legal_constant _ _ _ _ _ Hrun).
Defined.

(** ** The rewriter, continued *)

Lemma body_after_creates (ops : list Operation) (st : Rewriter) :
  (insertionPoint st <= length (body st))%nat ->
  body (after_creates st ops) =
  take (insertionPoint st) (body st) ++ ops ++
  drop (insertionPoint st) (body st).
Proof.
  revert st. induction ops as [| o ops IH]; intros st Hip.
  - cbn. rewrite take_drop. reflexivity.
  - change (after_creates st (o :: ops))
      with (after_creates (after_create st o) ops).
    rewrite IH; cbn [after_create body insertionPoint].
    + assert (Hl : length (take (insertionPoint st) (body st)) =
                   insertionPoint st) by (rewrite length_take; lia).
      unfold insert_at.
      replace (take (insertionPoint st) (body st) ++
               o :: drop (insertionPoint st) (body st))
        with ((take (insertionPoint st) (body st) ++ [o]) ++
              drop (insertionPoint st) (body st))
        by (rewrite <- app_assoc; reflexivity).
      assert (Hl' : length (take (insertionPoint st) (body st) ++ [o]) =
                    S (insertionPoint st))
        by (rewrite length_app, Hl; cbn; lia).
      rewrite <- Hl' at 1. rewrite take_app_length.
      rewrite <- Hl' at 1. rewrite drop_app_length.
      rewrite <- app_assoc. reflexivity.
    + unfold insert_at. rewrite length_app, length_take. cbn [length].
      rewrite length_drop. lia.
Qed.

Lemma counters_after_creates (ops : list Operation) (st : Rewriter) :
  nextHandle (after_creates st ops) = (nextHandle st + length ops)%nat /\
  insertionPoint (after_creates st ops) =
    (insertionPoint st + length ops)%nat /\
  replacements (after_creates st ops) = replacements st.
Proof.
  revert st. induction ops as [| o ops IH]; intros st.
  - cbn. repeat split; lia.
  - change (after_creates st (o :: ops))
      with (after_creates (after_create st o) ops).
    destruct (IH (after_create st o)) as (-> & -> & ->).
    cbn [after_create nextHandle insertionPoint replacements length].
    repeat split; lia.
Qed.

Lemma numbered_ids (h : nat) (loc : Location) (views : list OpView) :
  op_id <$> numbered h loc views = seq h (length views).
Proof.
  revert h. induction views as [| v views IH]; intros h; cbn.
  - reflexivity.
  - rewrite IH. reflexivity.
Qed.

Lemma numbered_locs (h : nat) (loc : Location) (views : list OpView) :
  Forall (fun o => getLoc o = loc) (numbered h loc views).
Proof.
  revert h. induction views as [| v views IH]; intros h; cbn.
  - constructor.
  - constructor; [reflexivity | apply IH].
Qed.

Lemma numbered_length (h : nat) (loc : Location) (views : list OpView) :
  length (numbered h loc views) = length views.
Proof.
  revert h. induction views as [| v views IH]; intros h; cbn;
    [| rewrite IH]; reflexivity.
Qed.

(** ** [ConvertDotOp], continued *)

(** The operations [ConvertDotOp] creates carry the location of the
    contraction and handles that count up from the next free one. *)
Lemma ConvertDotOp_numbered (old_op : Operation) (lhs rhs : Value)
  (sl sr so : list Z) (el er eo : ElementType) (st : Rewriter) :
  view old_op = xla_hlo_DotOp (RankedTensorType so eo) lhs rhs ->
  Value_getType lhs = RankedTensorType sl el ->
  Value_getType rhs = RankedTensorType sr er ->
  exists views result,
    ConvertDotOp.ConvertDotOp old_op st =
      Some (result,
            after_creates st
              (numbered (nextHandle st) (getLoc old_op) views)) /\
    length views =
      (2 + (if bool_decide (length sl < 2)%nat then 1 else 0)
         + (if bool_decide (length sr < 2)%nat then 1 else 0))%nat.
Proof.
  intros Hv Hl Hr.
  unfold ConvertDotOp.ConvertDotOp, ConvertDotOp.reshape_to_2d.
  rewrite Hv, Hl, Hr.
  unfold bind, checked. rewrite !getRank_ranked, !normalize_rank_ranked.
  destruct (Z.leb_spec 2 (Z.of_nat (length sl))) as [Hgl | Hll];
    destruct (Z.leb_spec 2 (Z.of_nat (length sr))) as [Hgr | Hlr].
  - eexists [_; _], _. split; [reflexivity |].
    rewrite !bool_decide_eq_false_2 by lia. reflexivity.
  - eexists [_; _; _], _. split; [reflexivity |].
    rewrite bool_decide_eq_false_2 by lia.
    rewrite bool_decide_eq_true_2 by lia. reflexivity.
  - eexists [_; _; _], _. split; [reflexivity |].
    rewrite bool_decide_eq_true_2 by lia.
    rewrite bool_decide_eq_false_2 by lia. reflexivity.
  - eexists [_; _; _; _], _. split; [reflexivity |].
    rewrite !bool_decide_eq_true_2 by lia. reflexivity.
Qed.

(** X8. [ConvertDotOp] has a result exactly on a contraction whose two
    operands and whose result are ranked tensors; on any other operation,
    and on a contraction with an unranked operand or result, an assertion
    stops it. *)
Theorem ConvertDotOp_returns_iff :
  forall old_op st,
    is_Some (ConvertDotOp.ConvertDotOp old_op st) <->
    exists lhs rhs sl sr so el er eo,
      view old_op = xla_hlo_DotOp (RankedTensorType so eo) lhs rhs /\
      Value_getType lhs = RankedTensorType sl el /\
      Value_getType rhs = RankedTensorType sr er.
Proof.
  intros old_op st. split.
  - intros [[result st'] Hrun].
    exact (ConvertDotOp_returns_inv old_op st st' result Hrun).
  - intros (lhs & rhs & sl & sr & so & el & er & eo & Hv & Hl & Hr).
    destruct (ConvertDotOp_numbered old_op lhs rhs sl sr so el er eo st
                Hv Hl Hr) as (views & result & Hrun & _).
    rewrite Hrun. eexists. reflexivity.
Qed.

Lemma ConvertDotOp_returns_iff_witness :
  is_Some (ConvertDotOp.ConvertDotOp ScenarioB.dot
             (rewriter_on [ScenarioB.dot])) /\
  ~ is_Some (ConvertDotOp.ConvertDotOp ScenarioA.unit_stride
               (rewriter_on [ScenarioA.unit_stride])).
Proof.
  split.
  - apply (proj2 (ConvertDotOp_returns_iff ScenarioB.dot
                    (rewriter_on [ScenarioB.dot]))).
    exists ScenarioB.lhs, ScenarioB.rhs, [8], [8], [], f32, f32, f32.
    repeat split.
  - intros H.
    apply (proj1 (ConvertDotOp_returns_iff ScenarioA.unit_stride
                    (rewriter_on [ScenarioA.unit_stride]))) in H.
    destruct H as (lhs & rhs & sl & sr & so & el & er & eo & Hv & _).
    discriminate.
Defined.

(** X9. [ConvertDotOp] only adds operations. It creates two, three or four
    of them, in one block at the insertion point, with the location of the
    contraction and with fresh handles that count up; the operations that
    were in the function stay as and where they were, the contraction among
    them, and no replacement is recorded. *)
Theorem ConvertDotOp_only_adds :
  forall old_op st result st',
    ConvertDotOp.ConvertDotOp old_op st = Some (result, st') ->
    (insertionPoint st <= length (body st))%nat ->
    exists created,
      createdOps st' = createdOps st ++ created /\
      body st' =
        take (insertionPoint st) (body st) ++ created ++
        drop (insertionPoint st) (body st) /\
      replacements st' = replacements st /\
      (2 <= length created <= 4)%nat /\
      op_id <$> created = seq (nextHandle st) (length created) /\
      Forall (fun o => getLoc o = getLoc old_op) created /\
      nextHandle st' = (nextHandle st + length created)%nat /\
      insertionPoint st' = (insertionPoint st + length created)%nat.
Proof.
  intros old_op st result st' Hrun Hip.
  destruct (ConvertDotOp_returns_inv old_op st st' result Hrun)
    as (lhs & rhs & sl & sr & so & el & er & eo & Hv & Hl & Hr).
  destruct (ConvertDotOp_numbered old_op lhs rhs sl sr so el er eo st
              Hv Hl Hr) as (views & result2 & Hrun2 & Hlen).
  rewrite Hrun in Hrun2. injection Hrun2 as _ ->.
  exists (numbered (nextHandle st) (getLoc old_op) views).
  destruct (counters_after_creates
              (numbered (nextHandle st) (getLoc old_op) views) st)
    as (Hh & Hi & Hrep).
  split; [apply createdOps_after_creates |].
  split; [apply body_after_creates; exact Hip |].
  split; [exact Hrep |].
  rewrite numbered_length in *.
  split; [rewrite Hlen; repeat case_bool_decide; lia |].
  split; [apply numbered_ids |].
  split; [apply numbered_locs |].
  split; assumption.
Qed.

Lemma ConvertDotOp_only_adds_witness :
  exists result st',
    ConvertDotOp.ConvertDotOp ScenarioB.dot (rewriter_on [ScenarioB.dot]) =
      Some (result, st') /\
    replacements st' = [] /\
    exists created, body st' = created ++ [ScenarioB.dot].
Proof.
  destruct (ConvertDotOp.ConvertDotOp ScenarioB.dot
              (rewriter_on [ScenarioB.dot]))
    as [[result st'] |] eqn:Hrun; [| vm_compute in Hrun; discriminate].
  destruct (ConvertDotOp_only_adds _ _ _ _ Hrun ltac:(cbn; lia))
    as (created & _ & Hbody & Hrep & _).
  exists result, st'. split; [reflexivity |]. split; [exact Hrep |].
  exists created. rewrite Hbody. reflexivity.
Defined.

Lemma operand_normalized_type (x : Value) (shape : list Z) (elt : ElementType)
  (created : list Operation) (a : Value) :
  Value_getType x = RankedTensorType shape elt ->
  operand_normalized x created a ->
  Value_getType a = RankedTensorType (normalized_shape shape) elt /\
  length created = (if bool_decide (length shape < 2)%nat then 1 else 0)%nat.
Proof.
  intros Hty Hn. destruct Hn as [s e Hs Hge | s e r a Hs Hlt Hv Hr];
    rewrite Hty in Hs; injection Hs as <- <-.
  - rewrite normalized_shape_id by assumption.
    rewrite bool_decide_eq_false_2 by lia. split; [exact Hty | reflexivity].
  - rewrite bool_decide_eq_true_2 by lia. split; [| reflexivity].
    unfold getResults, getResultTypes in Hr. rewrite Hv in Hr.
    cbn in Hr. injection Hr as <-. reflexivity.
Qed.

(** X10. The matrix multiplication gets what [tf.MatMul] asks for: both its
    operands and its result are ranked tensors of rank 2 or more. Each
    operand has the element type and the number of elements of the operand
    of the contraction it stands for, and the result has those of the
    declared result of the contraction, so that every reshape around the
    multiplication keeps the number of elements. One operation is created
    per operand of rank below 2, beside the multiplication and the
    final reshape. *)
Theorem ConvertDotOp_matmul_is_2d :
  forall old_op lhs rhs sl sr so el er eo st,
    view old_op = xla_hlo_DotOp (RankedTensorType so eo) lhs rhs ->
    Value_getType lhs = RankedTensorType sl el ->
    Value_getType rhs = RankedTensorType sr er ->
    exists st' result for_operands matmul reshape a b tb sa sb sm,
      ConvertDotOp.ConvertDotOp old_op st = Some (result, st') /\
      createdOps st' = createdOps st ++ for_operands ++ [matmul; reshape] /\
      view matmul = TF_MatMulOp (RankedTensorType sm eo) a b false tb /\
      Value_getType a = RankedTensorType sa el /\
      Value_getType b = RankedTensorType sb er /\
      (2 <= length sa)%nat /\ (2 <= length sb)%nat /\ (2 <= length sm)%nat /\
      numElements sa = numElements sl /\
      numElements sb = numElements sr /\
      numElements sm = numElements so /\
      length for_operands =
        ((if bool_decide (length sl < 2)%nat then 1 else 0) +
         (if bool_decide (length sr < 2)%nat then 1 else 0))%nat.
Proof.
  intros old_op lhs rhs sl sr so el er eo st Hv Hl Hr.
  destruct (ConvertDotOp_ranked old_op lhs rhs sl sr so el er eo st Hv Hl Hr)
    as (for_lhs & a & for_rhs & b & matmul & product & reshape & result &
        Hrun & Hna & Hnb & _ & Hm & _).
  destruct (operand_normalized_type lhs sl el for_lhs a Hl Hna) as [Hta Hca].
  destruct (operand_normalized_type rhs sr er for_rhs b Hr Hnb) as [Htb Hcb].
  eexists _, result, (for_lhs ++ for_rhs), matmul, reshape, a, b, _,
    (normalized_shape sl), (normalized_shape sr), (normalized_shape so).
  split; [exact Hrun |].
  split; [rewrite createdOps_after_creates, <- !app_assoc; reflexivity |].
  split; [exact Hm |]. split; [exact Hta |]. split; [exact Htb |].
  rewrite !normalized_shape_length, !numElements_normalized, length_app.
  repeat split; lia.
Qed.

Lemma ConvertDotOp_matmul_is_2d_witness :
  exists st' result,
    ConvertDotOp.ConvertDotOp ScenarioB.dot (rewriter_on [ScenarioB.dot]) =
      Some (result, st') /\
    length (createdOps st') = 4%nat.
Proof.
  destruct (ConvertDotOp_matmul_is_2d
              ScenarioB.dot ScenarioB.lhs ScenarioB.rhs [8] [8] [] f32 f32 f32
              (rewriter_on [ScenarioB.dot]) eq_refl eq_refl eq_refl)
    as (st' & result & for_operands & matmul & reshape & a & b & tb & sa &
        sb & sm & Hrun & Hc & _ & _ & _ & _ & _ & _ & _ & _ & _ & Hlen).
  exists st', result. split; [exact Hrun |].
  rewrite Hc, !length_app, Hlen. reflexivity.
Defined.

(** ** What the rewrites create, and the target of the pass *)

Lemma created_since_app (st st' : Rewriter) (created : list Operation) :
  createdOps st' = createdOps st ++ created ->
  created_since st st' = created.
Proof.
  intros H. unfold created_since. rewrite H. apply drop_app_length.
Qed.

(** X11. Every operation [ConvertSliceOp] creates is legal for the target
    of the pass, so that its rewrite needs no further legalization.
    [ConvertDotOp] does not get that far: the matrix multiplication is
    legal, but every other operation it creates is an [xla_hlo.reshape],
    which the target does not make legal, and the value it returns is the
    result of such a reshape. *)
Theorem created_operations_and_the_target :
  (forall slice_op st st',
     ConvertSliceOp.matchAndRewrite slice_op st = Some (success, st') ->
     length (created_since st st') = 3%nat /\
     Forall (fun o => isLegal LegalizeHloToTf.target o = true)
            (created_since st st')) /\
  (forall old_op st result st',
     ConvertDotOp.ConvertDotOp old_op st = Some (result, st') ->
     exists for_operands matmul reshape,
       created_since st st' = for_operands ++ [matmul; reshape] /\
       isLegal LegalizeHloToTf.target matmul = true /\
       Forall (fun o => is_reshape o = true /\
                        isLegal LegalizeHloToTf.target o = false)
              (for_operands ++ [reshape]) /\
       getResults reshape = [result]).
Proof.
  split.
  - intros slice_op st st' Hrun.
    destruct (matchAndRewrite_total slice_op st)
      as [Hf | (t & x & s & l & d & _ & _ & Hs)].
    { rewrite Hf in Hrun. discriminate. }
    rewrite Hs in Hrun. injection Hrun as <-.
    erewrite created_since_app by reflexivity.
    split; [reflexivity |].
    repeat constructor; rewrite isLegal_by_name;
      apply bool_decide_eq_true_2; left; reflexivity.
  - intros old_op st result st' Hrun.
    destruct (ConvertDotOp_returns_inv old_op st st' result Hrun)
      as (lhs & rhs & sl & sr & so & el & er & eo & Hv & Hl & Hr).
    destruct (ConvertDotOp_ranked old_op lhs rhs sl sr so el er eo st
                Hv Hl Hr)
      as (for_lhs & a & for_rhs & b & matmul & product & reshape & result2 &
          Hrun2 & _ & _ & Hre & Hm & _ & Hrs & Hres).
    rewrite Hrun in Hrun2. injection Hrun2 as <- ->.
    exists (for_lhs ++ for_rhs), matmul, reshape.
    split.
    { apply created_since_app.
      rewrite createdOps_after_creates, <- !app_assoc. reflexivity. }
    split.
    { rewrite isLegal_by_name. apply bool_decide_eq_true_2. left.
      unfold getName. rewrite Hm. reflexivity. }
    split; [| exact Hres].
    assert (Hnot : forall o, is_reshape o = true ->
                     is_reshape o = true /\
                     isLegal LegalizeHloToTf.target o = false).
    { intros o Ho. split; [exact Ho |].
      rewrite isLegal_by_name. apply bool_decide_eq_false_2.
      unfold is_reshape in Ho. unfold getName.
      destruct (view o); try discriminate.
      cbn. intros [H | [H | H]]; discriminate. }
    apply Forall_app. split.
    + eapply Forall_impl; [exact Hre | exact Hnot].
    + constructor; [| constructor]. apply Hnot.
      unfold is_reshape. rewrite Hrs. reflexivity.
Qed.

Lemma created_operations_and_the_target_witness :
  exists result st' matmul reshape,
    ConvertDotOp.ConvertDotOp ScenarioC.dot (rewriter_on [ScenarioC.dot]) =
      Some (result, st') /\
    createdOps st' = [matmul; reshape] /\
    isLegal LegalizeHloToTf.target matmul = true /\
    isLegal LegalizeHloToTf.target reshape = false.
Proof.
  destruct (ConvertDotOp.ConvertDotOp ScenarioC.dot
              (rewriter_on [ScenarioC.dot]))
    as [[result st'] |] eqn:Hrun; [| vm_compute in Hrun; discriminate].
  destruct (proj2 created_operations_and_the_target _ _ _ _ Hrun)
    as (for_operands & matmul & reshape & Hc & Hm & Hall & _).
  assert (Hst : createdOps st' =
                [mkOp 1 "c.mlir:1"
                   (TF_MatMulOp (RankedTensorType [3; 5] f32)
                      ScenarioC.lhs ScenarioC.rhs false false);
                 mkOp 2 "c.mlir:1"
                   (xla_hlo_ReshapeOp (RankedTensorType [3; 5] f32)
                      (OpResult 1 0 (RankedTensorType [3; 5] f32)))]).
  { vm_compute in Hrun. injection Hrun as _ <-. reflexivity. }
  unfold created_since in Hc. cbn [rewriter_on createdOps length drop] in Hc.
  rewrite Hst in Hc.
  destruct for_operands as [| o1 [| o2 [| o3 rest]]]; cbn in Hc;
    try discriminate.
  injection Hc as <- <-.
  eexists result, st', _, _. split; [reflexivity |].
  split; [exact Hst |]. split; [exact Hm |].
  apply Forall_app in Hall as [_ Hr].
  apply Forall_cons in Hr as [[_ Hr] _]. exact Hr.
Defined.

(** ** [ConvertSliceOp], continued *)

Lemma positionAfter_app (h : nat) (pre post : list Operation)
  (x : Operation) :
  Forall (fun o => op_id o <> h) pre ->
  op_id x = h ->
  positionAfter h (pre ++ x :: post) = S (length pre).
Proof.
  intros Hpre Hx. induction Hpre as [| o pre Ho _ IH]; cbn.
  - rewrite bool_decide_eq_true_2 by assumption. reflexivity.
  - rewrite bool_decide_eq_false_2 by assumption. rewrite IH. reflexivity.
Qed.

(** X12. The three operations that replace a slice are put into the
    function directly behind the slice, in the order start constant, size
    constant, new slice. They carry the location of the slice and the next
    three free handles. The slice itself stays in the function, and so does
    every other operation, in its place: the replacement is recorded, to be
    carried out by the driver. *)
Theorem ConvertSliceOp_places_behind_slice :
  forall slice_op type operand start_indices limit_indices strides st
         pre post,
    view slice_op =
      xla_hlo_SliceOp type operand start_indices limit_indices strides ->
    splat_equal_to_1 strides ->
    body st = pre ++ slice_op :: post ->
    Forall (fun o => op_id o <> op_id slice_op) pre ->
    exists st' start size new_op,
      ConvertSliceOp.matchAndRewrite slice_op st = Some (success, st') /\
      body st' = pre ++ slice_op :: start :: size :: new_op :: post /\
      op_id <$> [start; size; new_op] = seq (nextHandle st) 3 /\
      Forall (fun o => getLoc o = getLoc slice_op) [start; size; new_op] /\
      nextHandle st' = (nextHandle st + 3)%nat /\
      replacements st' =
        replacements st ++ [(op_id slice_op, getResults new_op)].
Proof.
  intros slice_op type operand start_indices limit_indices strides st
    pre post Hv Hs Hbody Hpre.
  apply strides_not_one_false in Hs.
  eexists _, _, _, _.
  split; [apply (matchAndRewrite_applies _ _ _ _ _ _ Hv st Hs) |].
  unfold slice_rewritten. cbn [body nextHandle replacements].
  rewrite Hbody, (positionAfter_app _ pre post slice_op Hpre eq_refl).
  replace (pre ++ slice_op :: post) with ((pre ++ [slice_op]) ++ post)
    by (rewrite <- app_assoc; reflexivity).
  replace (S (length pre)) with (length (pre ++ [slice_op]))
    by (rewrite length_app; cbn; lia).
  rewrite take_app_length, drop_app_length, <- app_assoc.
  split; [reflexivity |]. split; [reflexivity |].
  split; [repeat constructor |]. split; [lia | reflexivity].
Qed.

Lemma ConvertSliceOp_places_behind_slice_witness :
  exists st' start size new_op,
    ConvertSliceOp.matchAndRewrite ScenarioA.unit_stride
      (rewriter_on
         [ScenarioA.unit_stride;
          mkOp 1 "a.mlir:2"
            (OtherOp (mkName "std" "return")
               [OpResult 0 0 (RankedTensorType [4; 2] f32)] [])]) =
      Some (success, st') /\
    body st' =
      [ScenarioA.unit_stride; start; size; new_op;
       mkOp 1 "a.mlir:2"
         (OtherOp (mkName "std" "return")
            [OpResult 0 0 (RankedTensorType [4; 2] f32)] [])].
Proof.
  assert (Hs : splat_equal_to_1 (i64_vector [1; 1])).
  { exists (APInt_of_i64 1). split; [exists 1%nat |]; reflexivity. }
  destruct (ConvertSliceOp_places_behind_slice
              ScenarioA.unit_stride _ _ _ _ _
              (rewriter_on
                 [ScenarioA.unit_stride;
                  mkOp 1 "a.mlir:2"
                    (OtherOp (mkName "std" "return")
                       [OpResult 0 0 (RankedTensorType [4; 2] f32)] [])])
              [] _ eq_refl Hs eq_refl ltac:(constructor))
    as (st' & start & size & new_op & Hrun & Hbody & _).
  exists st', start, size, new_op. split; [exact Hrun | exact Hbody].
Defined.

(** ** [ConvertDotOp] on products with a vector *)

(** X16. A contraction whose result is a vector of [k] elements becomes a
    matrix multiplication that is declared with the result type [1, k],
    whichever of the operands is the vector. For a matrix [k, n] times a
    vector [n] the vector is reshaped to [1, n] and transposed; for a
    vector [n] times a matrix [n, k] the vector is reshaped to [1, n] and
    nothing is transposed. In both cases three operations are created. *)
Theorem ConvertDotOp_vector_result :
  (forall old_op lhs rhs k n el er eo st,
     view old_op = xla_hlo_DotOp (RankedTensorType [k] eo) lhs rhs ->
     Value_getType lhs = RankedTensorType [k; n] el ->
     Value_getType rhs = RankedTensorType [n] er ->
     exists st' result for_rhs b matmul reshape,
       ConvertDotOp.ConvertDotOp old_op st = Some (result, st') /\
       createdOps st' = createdOps st ++ [for_rhs; matmul; reshape] /\
       view for_rhs =
         xla_hlo_ReshapeOp (RankedTensorType [1; n] er) rhs /\
       getResults for_rhs = [b] /\
       view matmul =
         TF_MatMulOp (RankedTensorType [1; k] eo) lhs b false true) /\
  (forall old_op lhs rhs k n el er eo st,
     view old_op = xla_hlo_DotOp (RankedTensorType [k] eo) lhs rhs ->
     Value_getType lhs = RankedTensorType [n] el ->
     Value_getType rhs = RankedTensorType [n; k] er ->
     exists st' result for_lhs a matmul reshape,
       ConvertDotOp.ConvertDotOp old_op st = Some (result, st') /\
       createdOps st' = createdOps st ++ [for_lhs; matmul; reshape] /\
       view for_lhs =
         xla_hlo_ReshapeOp (RankedTensorType [1; n] el) lhs /\
       getResults for_lhs = [a] /\
       view matmul =
         TF_MatMulOp (RankedTensorType [1; k] eo) a rhs false false).
Proof.
  split.
  - intros old_op lhs rhs k n el er eo st Hv Hl Hr.
    destruct (ConvertDotOp_ranked old_op lhs rhs [k; n] [n] [k] el er eo st
                Hv Hl Hr)
      as (for_lhs & a & for_rhs & b & matmul & product & reshape & result &
          Hrun & Hna & Hnb & _ & Hm & _).
    destruct (operand_normalized_rank2 lhs [k; n] el for_lhs a Hl
                ltac:(cbn; lia) Hna) as [-> ->].
    destruct (operand_normalized_low_rank rhs [n] er for_rhs b Hr
                ltac:(cbn; lia) Hnb) as (r & -> & Hrv & Hrr).
    eexists _, result, r, b, matmul, reshape.
    split; [exact Hrun |].
    split; [rewrite createdOps_after_creates; reflexivity |].
    split; [exact Hrv |]. split; [exact Hrr | exact Hm].
  - intros old_op lhs rhs k n el er eo st Hv Hl Hr.
    destruct (ConvertDotOp_ranked old_op lhs rhs [n] [n; k] [k] el er eo st
                Hv Hl Hr)
      as (for_lhs & a & for_rhs & b & matmul & product & reshape & result &
          Hrun & Hna & Hnb & _ & Hm & _).
    destruct (operand_normalized_low_rank lhs [n] el for_lhs a Hl
                ltac:(cbn; lia) Hna) as (r & -> & Hrv & Hrr).
    destruct (operand_normalized_rank2 rhs [n; k] er for_rhs b Hr
                ltac:(cbn; lia) Hnb) as [-> ->].
    eexists _, result, r, a, matmul, reshape.
    split; [exact Hrun |].
    split; [rewrite createdOps_after_creates; reflexivity |].
    split; [exact Hrv |]. split; [exact Hrr | exact Hm].
Qed.

Lemma ConvertDotOp_vector_result_witness :
  exists st' result for_rhs b matmul reshape,
    ConvertDotOp.ConvertDotOp
      (mkOp 0 "f.mlir:1"
         (xla_hlo_DotOp (RankedTensorType [5] f32)
            (BlockArgument 0 (RankedTensorType [5; 256] f32))
            (BlockArgument 1 (RankedTensorType [256] f32))))
      (rewriter_on []) = Some (result, st') /\
    createdOps st' = [for_rhs; matmul; reshape] /\
    view matmul =
      TF_MatMulOp (RankedTensorType [1; 5] f32)
        (BlockArgument 0 (RankedTensorType [5; 256] f32)) b false true.
Proof.
  destruct (proj1 ConvertDotOp_vector_result
              (mkOp 0 "f.mlir:1"
                 (xla_hlo_DotOp (RankedTensorType [5] f32)
                    (BlockArgument 0 (RankedTensorType [5; 256] f32))
                    (BlockArgument 1 (RankedTensorType [256] f32))))
              _ _ 5 256 f32 f32 f32 (rewriter_on [])
              eq_refl eq_refl eq_refl)
    as (st' & result & for_rhs & b & matmul & reshape & Hrun & Hc & _ & _ &
        Hm).
  exists st', result, for_rhs, b, matmul, reshape.
  split; [exact Hrun |]. split; [exact Hc | exact Hm].
Defined.
